(** * FlowShield voice assistant: session and transcript controller

    Shallow embedding of [src/app/(tabs)/index.tsx]: the [HomeScreen]
    component (connection management), the [RoomContent] component
    (transcript, welcome notice, participant notices, data-channel
    handler) and the two platform functions the data handler calls,
    [TextDecoder.decode] and [JSON.parse].

    React state is modelled by explicit state passing.  A component that
    is not rendered has no state: [RoomContent] lives only while
    [HomeScreen] renders [VoiceAssistant]. *)

From Stdlib Require Import ZArith NArith List String Ascii Bool Lia.
From Stdlib Require Import DecimalString DecimalPos DecimalZ Sorted.
From Stdlib Require Import Strings.Byte.
Import ListNotations.

Local Open Scope N_scope.

(** ** JavaScript strings and values *)

Module JS.

(** A JavaScript string is a sequence of UTF-16 code units. *)
Definition jsstring := list N.

(** A string literal of the source (ASCII only in this program). *)
Definition lit (s : string) : jsstring :=
  List.map N_of_ascii (list_ascii_of_string s).

Fixpoint eqb (a b : jsstring) : bool :=
  match a, b with
  | [], [] => true
  | x :: a', y :: b' => N.eqb x y && eqb a' b'
  | _, _ => false
  end.

(** [Number.prototype.toString] of an integral number of milliseconds. *)
Definition toString (n : Z) : jsstring :=
  lit (NilZero.string_of_int (Z.to_int n)).

(** Truthiness of a value that is a string or [undefined]/[null]. *)
Definition truthy (v : option jsstring) : bool :=
  match v with
  | None => false
  | Some [] => false
  | Some (_ :: _) => true
  end.

(** [a || b] on such values. *)
Definition or (a b : option jsstring) : option jsstring :=
  if truthy a then a else b.

End JS.

Import JS.

(** ** [new TextDecoder().decode(payload)]

    The default decoder is UTF-8, not fatal, and removes a leading byte
    order mark.  An ill-formed sequence does not raise: it is replaced by
    U+FFFD and decoding goes on. *)

Module TextDecoder.

Record Pending := mkPending
  { code_point : N;      (* bits gathered so far *)
    remaining : nat;     (* continuation bytes still expected, >= 1 *)
    lower : N;           (* bounds for the next continuation byte *)
    upper : N }.

Inductive Lead := Emit (c : N) | More (p : Pending) | Bad.

Definition within (lo hi b : N) : bool := (lo <=? b) && (b <=? hi).

(** A byte read while no sequence is open. *)
Definition lead (b : N) : Lead :=
  if b <=? 0x7F then Emit b
  else if within 0xC2 0xDF b then
    More (mkPending (N.land b 0x1F) 1 0x80 0xBF)
  else if within 0xE0 0xEF b then
    More (mkPending (N.land b 0xF) 2
            (if b =? 0xE0 then 0xA0 else 0x80)
            (if b =? 0xED then 0x9F else 0xBF))
  else if within 0xF0 0xF4 b then
    More (mkPending (N.land b 0x7) 3
            (if b =? 0xF0 then 0x90 else 0x80)
            (if b =? 0xF4 then 0x8F else 0xBF))
  else Bad.

Definition REPLACEMENT : N := 0xFFFD.

(** The code points of a byte sequence. *)
Fixpoint code_points (st : option Pending) (bs : list byte) : list N :=
  match bs with
  | [] => match st with None => [] | Some _ => [REPLACEMENT] end
  | b :: rest =>
      let n := Byte.to_N b in
      match st with
      | None =>
          match lead n with
          | Emit c => c :: code_points None rest
          | More p => code_points (Some p) rest
          | Bad => REPLACEMENT :: code_points None rest
          end
      | Some p =>
          if within (lower p) (upper p) n then
            let cp := N.lor (N.shiftl (code_point p) 6) (N.land n 0x3F) in
            match remaining p with
            | S (S k) => code_points (Some (mkPending cp (S k) 0x80 0xBF)) rest
            | _ => cp :: code_points None rest
            end
          else
            (* the open sequence is replaced, the byte is read again *)
            REPLACEMENT ::
              match lead n with
              | Emit c => c :: code_points None rest
              | More q => code_points (Some q) rest
              | Bad => REPLACEMENT :: code_points None rest
              end
      end
  end.

Definition strip_bom (cps : list N) : list N :=
  match cps with
  | c :: rest => if c =? 0xFEFF then rest else cps
  | [] => []
  end.

(** Code points to UTF-16 code units. *)
Definition code_units (c : N) : list N :=
  if c <=? 0xFFFF then [c]
  else let v := c - 0x10000 in
       [0xD800 + N.shiftr v 10; 0xDC00 + N.land v 0x3FF].

Definition decode (payload : list byte) : jsstring :=
  List.flat_map code_units (strip_bom (code_points None payload)).



End TextDecoder.

(** ** [JSON.parse]

    The JSON grammar of ECMA-262: one value between optional white
    space.  [None] stands for the [SyntaxError] that [JSON.parse]
    throws. *)

Module JSON.

#[local] Set Warnings "-register-all".

(** Parsed values.  A number keeps its lexeme: the program never
    computes with one.  An object keeps its properties in creation
    order, each key once. *)
Inductive value :=
| Null
| Bool (b : bool)
| Number (lexeme : jsstring)
| String (s : jsstring)
| Array (items : list value)
| Object (props : list (jsstring * value)).

Definition QUOTE : N := 0x22.

Definition isc (a : ascii) (c : N) : bool := c =? N_of_ascii a.

Definition between (a b : ascii) (c : N) : bool :=
  (N_of_ascii a <=? c) && (c <=? N_of_ascii b).

Definition whitespace (c : N) : bool :=
  (c =? 0x20) || (c =? 0x09) || (c =? 0x0A) || (c =? 0x0D).

Fixpoint skip_ws (s : list N) : list N :=
  match s with
  | c :: r => if whitespace c then skip_ws r else s
  | [] => []
  end.

Definition hex_digit (c : N) : option N :=
  if between "0" "9" c then Some (c - 48)
  else if between "a" "f" c then Some (c - 87)
  else if between "A" "F" c then Some (c - 55)
  else None.

Definition hex4 (a b c d : N) : option N :=
  match hex_digit a, hex_digit b, hex_digit c, hex_digit d with
  | Some x, Some y, Some z, Some w => Some (((x * 16 + y) * 16 + z) * 16 + w)
  | _, _, _, _ => None
  end.

(** The single-character escapes. *)
Definition escape (e : N) : option N :=
  if e =? QUOTE then Some QUOTE
  else if isc "\" e then Some 0x5C
  else if isc "/" e then Some 0x2F
  else if isc "b" e then Some 0x08
  else if isc "f" e then Some 0x0C
  else if isc "n" e then Some 0x0A
  else if isc "r" e then Some 0x0D
  else if isc "t" e then Some 0x09
  else None.

(** The characters of a string, read after its opening quote. *)
Fixpoint string_chars (s : list N) : option (jsstring * list N) :=
  match s with
  | [] => None
  | c :: r =>
      if c =? QUOTE then Some ([], r)
      else if isc "\" c then
        match r with
        | [] => None
        | e :: r1 =>
            if isc "u" e then
              match r1 with
              | h1 :: h2 :: h3 :: h4 :: r2 =>
                  match hex4 h1 h2 h3 h4, string_chars r2 with
                  | Some u, Some (str, rest) => Some (u :: str, rest)
                  | _, _ => None
                  end
              | _ => None
              end
            else
              match escape e, string_chars r1 with
              | Some u, Some (str, rest) => Some (u :: str, rest)
              | _, _ => None
              end
        end
      else if c <? 0x20 then None
      else
        match string_chars r with
        | Some (str, rest) => Some (c :: str, rest)
        | None => None
        end
  end.

Fixpoint digits (s : list N) : jsstring * list N :=
  match s with
  | c :: r =>
      if between "0" "9" c then let (ds, rest) := digits r in (c :: ds, rest)
      else ([], s)
  | [] => ([], [])
  end.

(** [-? int frac? exp?] *)
Definition minus (s : list N) : jsstring * list N :=
  match s with
  | c :: r => if isc "-" c then ([c], r) else ([], s)
  | [] => ([], [])
  end.

Definition int (s : list N) : option (jsstring * list N) :=
  match s with
  | c :: r =>
      if isc "0" c then Some ([c], r)
      else if between "1" "9" c then
        let (ds, rest) := digits r in Some (c :: ds, rest)
      else None
  | [] => None
  end.

Definition frac (s : list N) : option (jsstring * list N) :=
  match s with
  | c :: r =>
      if isc "." c then
        match digits r with
        | ([], _) => None
        | (ds, rest) => Some (c :: ds, rest)
        end
      else Some ([], s)
  | [] => Some ([], [])
  end.

Definition sign (s : list N) : jsstring * list N :=
  match s with
  | c :: r => if isc "+" c || isc "-" c then ([c], r) else ([], s)
  | [] => ([], [])
  end.

Definition exp (s : list N) : option (jsstring * list N) :=
  match s with
  | c :: r =>
      if isc "e" c || isc "E" c then
        let (sg, r1) := sign r in
        match digits r1 with
        | ([], _) => None
        | (ds, rest) => Some (c :: sg ++ ds, rest)
        end
      else Some ([], s)
  | [] => Some ([], [])
  end.

Definition number (s : list N) : option (jsstring * list N) :=
  let (m, s1) := minus s in
  match int s1 with
  | None => None
  | Some (i, s2) =>
      match frac s2 with
      | None => None
      | Some (f, s3) =>
          match exp s3 with
          | None => None
          | Some (e, s4) => Some (m ++ i ++ f ++ e, s4)
          end
      end
  end.

(** [keyword w s]: [s] without its prefix [w]. *)
Fixpoint keyword (w s : list N) : option (list N) :=
  match w, s with
  | [], _ => Some s
  | a :: w', c :: s' => if a =? c then keyword w' s' else None
  | _ :: _, [] => None
  end.

Fixpoint lookup (key : jsstring) (props : list (jsstring * value)) : option value :=
  match props with
  | [] => None
  | (k, v) :: rest => if JS.eqb k key then Some v else lookup key rest
  end.

(** Defining a property: a key defined again takes the new value. *)
Fixpoint define (key : jsstring) (v : value) (props : list (jsstring * value))
  : list (jsstring * value) :=
  match props with
  | [] => [(key, v)]
  | (k, w) :: rest =>
      if JS.eqb k key then (k, v) :: rest else (k, w) :: define key v rest
  end.

Definition object_of (members : list (jsstring * value)) : value :=
  Object (fold_left (fun props kv => define (fst kv) (snd kv) props) members []).

(** A parser reads a prefix of the text and returns the rest. *)
Definition Parser (A : Type) : Type := list N -> option (A * list N).

(** One value, given the parsers for what follows [[] and [{]. *)
Definition value_body (elements : Parser (list value))
  (members : Parser (list (jsstring * value))) : Parser value :=
  fun s =>
    match skip_ws s with
    | [] => None
    | c :: r =>
        if isc "{" c then
          match skip_ws r with
          | [] => None
          | c1 :: r1 =>
              if isc "}" c1 then Some (Object [], r1)
              else
                match members (c1 :: r1) with
                | Some (ms, rest) => Some (object_of ms, rest)
                | None => None
                end
          end
        else if isc "[" c then
          match skip_ws r with
          | [] => None
          | c1 :: r1 =>
              if isc "]" c1 then Some (Array [], r1)
              else
                match elements (c1 :: r1) with
                | Some (vs, rest) => Some (Array vs, rest)
                | None => None
                end
          end
        else if c =? QUOTE then
          match string_chars r with
          | Some (str, rest) => Some (String str, rest)
          | None => None
          end
        else if isc "t" c then
          option_map (fun rest => (Bool true, rest)) (keyword (lit "rue") r)
        else if isc "f" c then
          option_map (fun rest => (Bool false, rest)) (keyword (lit "alse") r)
        else if isc "n" c then
          option_map (fun rest => (Null, rest)) (keyword (lit "ull") r)
        else
          match number (c :: r) with
          | Some (lexeme, rest) => Some (Number lexeme, rest)
          | None => None
          end
    end.

(** The elements of an array and its closing bracket. *)
Definition elements_body (val : Parser value)
  (elements : Parser (list value)) : Parser (list value) :=
  fun s =>
    match val s with
    | None => None
    | Some (v, r) =>
        match skip_ws r with
        | [] => None
        | c :: r1 =>
            if isc "," c then
              match elements r1 with
              | Some (vs, rest) => Some (v :: vs, rest)
              | None => None
              end
            else if isc "]" c then Some ([v], r1)
            else None
        end
    end.

(** The members of an object and its closing brace. *)
Definition members_body (val : Parser value)
  (members : Parser (list (jsstring * value)))
  : Parser (list (jsstring * value)) :=
  fun s =>
    match skip_ws s with
    | [] => None
    | q :: r =>
        if q =? QUOTE then
          match string_chars r with
          | None => None
          | Some (key, r1) =>
              match skip_ws r1 with
              | [] => None
              | c :: r2 =>
                  if isc ":" c then
                    match val r2 with
                    | None => None
                    | Some (v, r3) =>
                        match skip_ws r3 with
                        | [] => None
                        | d :: r4 =>
                            if isc "," d then
                              match members r4 with
                              | Some (ms, rest) => Some ((key, v) :: ms, rest)
                              | None => None
                              end
                            else if isc "}" d then Some ([(key, v)], r4)
                            else None
                        end
                    end
                  else None
              end
          end
        else None
    end.

(** The three parsers, by recursion on a bound of the nesting.  Between
    two calls on the same text at least one character is read, so
    [2 * length s + 2] is enough for a text [s] (see [parse_value_enough]
    below). *)
Fixpoint parse_value (fuel : nat) : Parser value :=
  match fuel with
  | O => fun _ => None
  | S f => value_body (parse_elements f) (parse_members f)
  end

with parse_elements (fuel : nat) : Parser (list value) :=
  match fuel with
  | O => fun _ => None
  | S f => elements_body (parse_value f) (parse_elements f)
  end

with parse_members (fuel : nat) : Parser (list (jsstring * value)) :=
  match fuel with
  | O => fun _ => None
  | S f => members_body (parse_value f) (parse_members f)
  end.

Definition parse (text : jsstring) : option value :=
  match parse_value (2 * List.length text + 2) text with
  | Some (v, rest) =>
      match skip_ws rest with
      | [] => Some v
      | _ :: _ => None
      end
  | None => None
  end.

(** A parser that never returns more text than it was given. *)
Definition shrinking {A} (p : Parser A) : Prop :=
  forall s x r, p s = Some (x, r) -> (List.length r <= List.length s)%nat.

(** Two parsers that agree on every text shorter than [n]. *)
Definition agree_below {A} (n : nat) (p q : Parser A) : Prop :=
  forall s, (List.length s < n)%nat -> p s = q s.

(** Whatever [p] parses, [q] parses as well. *)
Definition below {A} (p q : Parser A) : Prop :=
  forall s x, p s = Some x -> q s = Some x.

End JSON.

Local Close Scope N_scope.

(** ** Values of the program *)

(** A JavaScript value as the data handler meets one: [undefined] or a
    value produced by [JSON.parse]. *)
Definition any := option JSON.value.
Definition undefined : any := None.
Definition str (s : jsstring) : any := Some (JSON.String s).

(** The completion of an expression that may throw. *)
Inductive completion (A : Type) :=
| Normal (a : A)
| Throw.
Arguments Normal {A} a.
Arguments Throw {A}.

(** [data.key] for a key that no built-in prototype defines (the
    program reads [type] and [text]): reading a property of [null]
    throws a TypeError, an object answers with its own property, every
    other value answers [undefined]. *)
Definition get (data : JSON.value) (key : jsstring) : completion any :=
  match data with
  | JSON.Null => Throw
  | JSON.Object props => Normal (JSON.lookup key props)
  | _ => Normal undefined
  end.

(** [v === s] for a string literal [s]. *)
Definition strict_eq (v : any) (s : jsstring) : bool :=
  match v with
  | Some (JSON.String t) => JS.eqb t s
  | _ => false
  end.

(** interface TranscriptMessage; [timestamp] is the [Date] in
    milliseconds since the epoch.  [text] is declared a string, but the
    data handler stores [data.text] unchecked. *)
Record TranscriptMessage := mkMessage
  { id : jsstring;
    text : any;
    participant : jsstring;
    timestamp : Z;
    isUser : bool }.

(** A room participant, as far as the program reads one. *)
Record Participant := mkParticipant { identity : jsstring }.

(** What the platform answers during one [addTranscriptMessage]:
    [Date.now()], the rendering of [Math.random()], and [new Date()]. *)
Record Reading := mkReading
  { date_now : Z;
    random : jsstring;
    new_date : Z }.

(** Lines written to the console. *)
Inductive LogLine :=
| ConnectedWith (n : nat)            (* console.log, participants effect *)
| DataReceived (data : JSON.value)   (* console.log, data handler *)
| ErrorParsing                       (* console.error, catch of the data handler *)
| ErrorStartingAudio.                (* console.error, initAudio *)

(** A text payload, written with apostrophes where the wire has double
    quotes. *)
Definition payload_of (s : string) : list byte :=
  List.map (fun b => match b with x27 => x22 | _ => b end) (list_byte_of_string s).

(** The platform outside the components: how many readings were taken,
    and the console. *)
Record World := mkWorld
  { calls : nat;
    console : list LogLine }.

(** ** RoomContent *)

Module RoomContent.

(** The two [useState] cells of the component. *)
Record State := mkState
  { transcripts : list TranscriptMessage;
    isInitialized : bool }.

Definition Store : Type := World * State.

(** Computations over the store. *)
Definition M (A : Type) : Type := Store -> A * Store.

Definition ret {A} (a : A) : M A := fun st => (a, st).

Definition bind {A B} (m : M A) (k : A -> M B) : M B :=
  fun st => let (a, st') := m st in k a st'.

Notation "x <- m ;; k" := (bind m (fun x => k))
  (at level 61, m at next level, right associativity).
Notation "m ;; k" := (bind m (fun _ => k))
  (at level 61, right associativity).

Definition exec {A} (m : M A) (st : Store) : Store := snd (m st).

Definition log (l : LogLine) : M unit :=
  fun '(w, s) => (tt, (mkWorld (calls w) (console w ++ [l]), s)).

Definition setTranscripts (f : list TranscriptMessage -> list TranscriptMessage)
  : M unit :=
  fun '(w, s) => (tt, (w, mkState (f (transcripts s)) (isInitialized s))).

Definition setIsInitialized (b : bool) : M unit :=
  fun '(w, s) => (tt, (w, mkState (transcripts s) b)).

Definition getIsInitialized : M bool :=
  fun '(w, s) => (isInitialized s, (w, s)).

Fixpoint forEach {A} (l : list A) (f : A -> M unit) : M unit :=
  match l with
  | [] => ret tt
  | x :: rest => f x ;; forEach rest f
  end.

Section WithPlatform.

(** The readings of the platform, in the order they are taken. *)
Variable oracle : nat -> Reading.

Definition read : M Reading :=
  fun '(w, s) => (oracle (calls w), (mkWorld (S (calls w)) (console w), s)).

Definition newMessage (r : Reading) (text : any) (participant : jsstring)
  (isUser : bool) : TranscriptMessage :=
  mkMessage (JS.toString (date_now r) ++ random r) text participant
    (new_date r) isUser.

Definition addTranscriptMessage (text : any) (participant : jsstring)
  (isUser : bool) : M unit :=
  r <- read ;;
  setTranscripts (fun prev => prev ++ [newMessage r text participant isUser]).

Definition clearTranscripts : M unit :=
  setTranscripts (fun _ => []).


Fixpoint appended (k : nat) (args : list (any * jsstring * bool))
  : list TranscriptMessage :=
  match args with
  | [] => []
  | (t, p, u) :: rest => newMessage (oracle k) t p u :: appended (S k) rest
  end.

Definition WELCOME : jsstring :=
  lit "Connected to FlowShield Assistant! Start speaking...".

Definition System : jsstring := lit "System".

(** useEffect(..., [isInitialized]) *)
Definition welcomeEffect : M unit :=
  initialized <- getIsInitialized ;;
  if negb initialized then
    addTranscriptMessage (str WELCOME) System false ;;
    setIsInitialized true
  else ret tt.

Definition announcement (p : Participant) : jsstring :=
  lit "Assistant " ++ identity p ++ lit " is in the room".

(** useEffect(..., [participants]) *)
Definition participantsEffect (participants : list Participant) : M unit :=
  if (0 <? List.length participants)%nat then
    log (ConnectedWith (List.length participants)) ;;
    forEach participants (fun p =>
      addTranscriptMessage (str (announcement p)) System false)
  else ret tt.

(** [participant?.identity] *)
Definition identity_of (participant : option Participant) : option jsstring :=
  option_map identity participant.

(** [participant?.identity === 'user' || !participant] *)
Definition isUser_of (participant : option Participant) : bool :=
  match identity_of participant with
  | Some i => JS.eqb i (lit "user")
  | None => false
  end
  || match participant with Some _ => false | None => true end.

(** [participant?.identity || 'User'] *)
Definition speaker_of (participant : option Participant) : jsstring :=
  match JS.or (identity_of participant) (Some (lit "User")) with
  | Some s => s
  | None => []
  end.

(** The listener of ['dataReceived'].  Its [try] block either completes
    or lands in [catch], which only writes to the console. *)
Definition handleDataReceived (payload : list byte)
  (participant : option Participant) : M unit :=
  match JSON.parse (TextDecoder.decode payload) with
  | None => log ErrorParsing
  | Some data =>
      log (DataReceived data) ;;
      match get data (lit "type") with
      | Throw => log ErrorParsing
      | Normal type =>
          if strict_eq type (lit "transcription") then
            match get data (lit "text") with
            | Throw => log ErrorParsing
            | Normal text =>
                addTranscriptMessage text (speaker_of participant)
                  (isUser_of participant)
            end
          else ret tt
      end
  end.

End WithPlatform.

(** The name shown above a message. *)
Definition shownName (message : TranscriptMessage) : jsstring :=
  if isUser message then lit "You" else participant message.

Definition fresh : State := mkState [] false.

End RoomContent.

(** ** HomeScreen *)

Module HomeScreen.

(** Where the two module constants are read from. *)
Record Config := mkConfig
  { extra_LIVEKIT_URL : option jsstring;  (* Constants.expoConfig?.extra?.LIVEKIT_URL *)
    env_LIVEKIT_URL : option jsstring;    (* process.env.LIVEKIT_URL *)
    extra_LIVEKIT_JWT : option jsstring;
    env_LIVEKIT_JWT : option jsstring }.

Definition LIVEKIT_URL (cfg : Config) : option jsstring :=
  JS.or (extra_LIVEKIT_URL cfg) (env_LIVEKIT_URL cfg).

Definition LIVEKIT_JWT (cfg : Config) : option jsstring :=
  JS.or (extra_LIVEKIT_JWT cfg) (env_LIVEKIT_JWT cfg).

(** The two [useState] cells of the component. *)
Record State := mkState
  { shouldConnect : bool;
    error : option jsstring }.

Definition setError (e : option jsstring) (s : State) : State :=
  mkState (shouldConnect s) e.

Definition setShouldConnect (b : bool) (s : State) : State :=
  mkState b (error s).

Definition URL_NOT_CONFIGURED : jsstring := lit "LIVEKIT_URL is not configured".

Definition JWT_NOT_CONFIGURED : jsstring :=
  lit "LIVEKIT_JWT is not configured. Please add your JWT token to the .env file or app.json extra config.".

Definition AUDIO_FAILED : jsstring := lit "Failed to initialize audio session".

Definition connectToRoom (cfg : Config) (s : State) : State :=
  if negb (truthy (LIVEKIT_URL cfg)) then setError (Some URL_NOT_CONFIGURED) s
  else if negb (truthy (LIVEKIT_JWT cfg)) then setError (Some JWT_NOT_CONFIGURED) s
  else setShouldConnect true (setError None s).

Definition disconnect (s : State) : State := setShouldConnect false s.

(** [if (shouldConnect && !error) return <VoiceAssistant .../>] *)
Definition rendersRoom (s : State) : bool :=
  shouldConnect s && negb (truthy (error s)).

Definition initial : State := mkState false None.

End HomeScreen.

(** ** The application *)

(** [HomeScreen], the [RoomContent] it renders (if any), and the
    platform. *)
Record App := mkApp
  { home : HomeScreen.State;
    room : option RoomContent.State;
    world : World }.

Definition initial : App :=
  mkApp HomeScreen.initial None (mkWorld 0 []).

(** Rendering after a change of the [HomeScreen] state: [RoomContent] is
    mounted with fresh state when [VoiceAssistant] starts to be rendered,
    kept while it is rendered, and unmounted, its state discarded, when
    the idle screen is rendered instead. *)
Definition commit (a : App) : App :=
  if HomeScreen.rendersRoom (home a) then
    match room a with
    | Some _ => a
    | None => mkApp (home a) (Some RoomContent.fresh) (world a)
    end
  else mkApp (home a) None (world a).

(** A computation of the mounted [RoomContent]; nothing runs when the
    component is not mounted (its listener is removed on unmount). *)
Definition inRoom (m : RoomContent.M unit) (a : App) : App :=
  match room a with
  | Some s =>
      let (w', s') := RoomContent.exec m (world a, s) in
      mkApp (home a) (Some s') w'
  | None => a
  end.

Inductive Event :=
| ConnectPressed                   (* "Connect to Assistant", idle screen *)
| DisconnectPressed                (* "Disconnect", room screen *)
| ClearPressed                     (* "Clear Chat", room screen *)
| WelcomeEffect                    (* the effect on [isInitialized] runs *)
| ParticipantsChanged (participants : list Participant)
                                   (* the effect on [participants] runs *)
| DataArrived (payload : list byte) (participant : option Participant)
                                   (* the room emits 'dataReceived' *)
| SessionFailed (reason : jsstring)
                                   (* the room reports a failure: no listener *)
| AudioStartFailed.                (* startAudioSession rejects *)

Section WithEnvironment.

Variable cfg : HomeScreen.Config.
Variable oracle : nat -> Reading.

Definition step (ev : Event) (a : App) : App :=
  match ev with
  | ConnectPressed =>
      if HomeScreen.rendersRoom (home a) then a
      else commit (mkApp (HomeScreen.connectToRoom cfg (home a)) (room a) (world a))
  | DisconnectPressed =>
      match room a with
      | Some _ => commit (mkApp (HomeScreen.disconnect (home a)) (room a) (world a))
      | None => a
      end
  | ClearPressed => inRoom RoomContent.clearTranscripts a
  | WelcomeEffect => inRoom (RoomContent.welcomeEffect oracle) a
  | ParticipantsChanged ps => inRoom (RoomContent.participantsEffect oracle ps) a
  | DataArrived payload participant =>
      inRoom (RoomContent.handleDataReceived oracle payload participant) a
  | SessionFailed _ => a
  | AudioStartFailed =>
      commit (mkApp (HomeScreen.setError (Some HomeScreen.AUDIO_FAILED) (home a))
                (room a)
                (mkWorld (calls (world a)) (console (world a) ++ [ErrorStartingAudio])))
  end.

Definition run (evs : list Event) (a : App) : App :=
  fold_left (fun a ev => step ev a) evs a.

End WithEnvironment.

(** ** The session states of the specification, read off the application *)

Inductive SessionState :=
| Idle
| Connecting
| Connected
| Failed (reason : jsstring).

(** Idle: the idle screen is rendered.  Connecting: the room screen is
    rendered and its welcome effect has not run.  Connected: it has. *)
Definition sessionState (a : App) : SessionState :=
  if HomeScreen.rendersRoom (home a) then
    match room a with
    | Some s => if RoomContent.isInitialized s then Connected else Connecting
    | None => Connecting
    end
  else Idle.

(** The transcript on screen, if the room screen is. *)
Definition snapshot (a : App) : option (list TranscriptMessage) :=
  option_map RoomContent.transcripts (room a).

(** [RoomContent] is mounted exactly when [HomeScreen] renders it. *)
Definition rendered (a : App) : Prop :=
  room a = None <-> HomeScreen.rendersRoom (home a) = false.

(** Timestamps never decrease along the transcript. *)
Definition monotone (l : list TranscriptMessage) : Prop :=
  forall i m m', nth_error l i = Some m -> nth_error l (S i) = Some m' ->
    (timestamp m <= timestamp m')%Z.

(** The timestamps of [l] are platform readings taken before reading
    [k], and they are in ascending order. *)
Definition stamped (oracle : nat -> Reading) (k : nat)
  (l : list TranscriptMessage) : Prop :=
  StronglySorted Z.le (List.map timestamp l)
  /\ Forall (fun m => exists j, (j < k)%nat /\ timestamp m = new_date (oracle j)) l.

(** One store follows another by appends only. *)
Definition extends (oracle : nat -> Reading) (st st' : RoomContent.Store) : Prop :=
  exists args,
    RoomContent.transcripts (snd st') =
      RoomContent.transcripts (snd st)
        ++ RoomContent.appended oracle (calls (fst st)) args
    /\ calls (fst st') = (calls (fst st) + List.length args)%nat
    /\ (RoomContent.isInitialized (snd st) = true ->
        RoomContent.isInitialized (snd st') = true).

(** The transcript on screen, if any, is [stamped]. *)
Definition in_order (oracle : nat -> Reading) (a : App) : Prop :=
  match room a with
  | Some s => stamped oracle (calls (world a)) (RoomContent.transcripts s)
  | None => True
  end.

(** The state of the mounted [RoomContent], the initial one when none
    is mounted. *)
Definition roomState (a : App) : RoomContent.State :=
  match room a with
  | Some s => s
  | None => RoomContent.fresh
  end.

(** [l] holds one System notice for each participant of [ps], in the
    order of [ps]. *)
Definition announces (ps : list Participant) (l : list TranscriptMessage) : Prop :=
  Forall2 (fun p m =>
             text m = str (lit "Assistant " ++ identity p ++ lit " is in the room")
             /\ participant m = lit "System"
             /\ isUser m = false) ps l.

(** ** Concrete inputs used by the examples *)

Module Sample.

(** A configuration with a server URL and a token. *)
Definition configured : HomeScreen.Config :=
  HomeScreen.mkConfig (Some (lit "wss://x")) None None (Some (lit "abc")).

(** No server URL anywhere. *)
Definition no_url : HomeScreen.Config :=
  HomeScreen.mkConfig None (Some []) None (Some (lit "abc")).

(** A server URL, no token. *)
Definition no_token : HomeScreen.Config :=
  HomeScreen.mkConfig (Some (lit "wss://x")) None (Some []) None.

(** A clock that runs forward, one millisecond per reading. *)
Definition forward (n : nat) : Reading :=
  mkReading (1000 + Z.of_nat n) (lit "0.5") (1000 + Z.of_nat n).

(** A clock that was set back after its first reading. *)
Definition set_back (n : nat) : Reading :=
  match n with
  | O => mkReading 1000 (lit "0.5") 1000
  | S _ => mkReading 400 (lit "0.25") 400
  end.

Definition assistant : Participant := mkParticipant (lit "assistant-1").

Definition user : Participant := mkParticipant (lit "user").

Definition nameless : Participant := mkParticipant [].

(** The room screen after its welcome effect. *)
Definition connected : App :=
  run configured forward [ConnectPressed; WelcomeEffect] initial.

Definition hello : list byte :=
  payload_of "{'type':'transcription','text':'hello'}".

Definition no_text : list byte :=
  payload_of "{'type':'transcription'}".


End Sample.

(** ** What the components render *)

Module View.

(** The props [VoiceAssistant] gives to [LiveKitRoom]; [serverUrl] and
    [token] are the module constants under a non-null assertion, which
    checks nothing when the program runs. *)
Record LiveKitRoomProps := mkProps
  { serverUrl : option jsstring;
    token : option jsstring;
    connect : bool;
    audio : bool;
    video : bool }.

Definition VoiceAssistant (cfg : HomeScreen.Config) : LiveKitRoomProps :=
  mkProps (HomeScreen.LIVEKIT_URL cfg) (HomeScreen.LIVEKIT_JWT cfg)
    true true false.

(** [{error && (<ThemedView>...Error: {error}...</ThemedView>)}]: nothing
    for [null], the error container for a non-empty string, and the
    empty string itself, outside any text component, for [""]. *)
Inductive Banner :=
| NoBanner
| BareText (s : jsstring)
| ErrorBanner (message : jsstring).

Definition banner (error : option jsstring) : Banner :=
  match error with
  | None => NoBanner
  | Some [] => BareText []
  | Some (c :: e) => ErrorBanner (lit "Error: " ++ c :: e)
  end.

(** What [HomeScreen] returns. *)
Inductive Home :=
| RoomScreen (props : LiveKitRoomProps)
| IdleScreen (b : Banner).

Definition homeScreen (cfg : HomeScreen.Config) (s : HomeScreen.State) : Home :=
  if HomeScreen.rendersRoom s then RoomScreen (VoiceAssistant cfg)
  else IdleScreen (banner (HomeScreen.error s)).

(** One message of the conversation: its React key, whether it is styled
    as the user's, the name above it, its text and its time (shown
    through [toLocaleTimeString], which is left to the platform). *)
Record Row := mkRow
  { key : jsstring;
    own : bool;
    name : jsstring;
    body : any;
    time : Z }.

Definition row (message : TranscriptMessage) : Row :=
  mkRow (id message) (isUser message) (RoomContent.shownName message)
    (text message) (timestamp message).

Inductive Conversation :=
| Placeholder                   (* "Conversation will appear here as you speak..." *)
| Rows (rows : list Row).

(** What [RoomContent] returns, as far as it depends on state: the
    "Clear Chat" button, the number after "Participants:", and the
    conversation. *)
Record Room := mkRoom
  { clearChat : bool;
    participantsShown : nat;
    conversation : Conversation }.

Definition roomContent (participants : list Participant)
  (s : RoomContent.State) : Room :=
  mkRoom (0 <? List.length (RoomContent.transcripts s))%nat
    (List.length participants + 1)
    (if (List.length (RoomContent.transcripts s) =? 0)%nat then Placeholder
     else Rows (List.map row (RoomContent.transcripts s))).

End View.

(** ** Where entries come from *)

(** The arguments of the three calls of [addTranscriptMessage] in the
    program: the welcome notice, the notice of a participant, and the
    entry of a transcription event. *)
Definition source_args (c : any * jsstring * bool) : Prop :=
  c = (str RoomContent.WELCOME, RoomContent.System, false)
  \/ (exists p, c = (str (RoomContent.announcement p), RoomContent.System, false))
  \/ (exists t sender,
        c = (t, RoomContent.speaker_of sender, RoomContent.isUser_of sender)).

(** The entry has a name to show, and is the user's only under the name
    "user" or "User". *)
Definition label_ok (m : TranscriptMessage) : Prop :=
  participant m <> []
  /\ (isUser m = true -> participant m = lit "user" \/ participant m = lit "User").

(** The [id] of the entry created from a reading. *)
Definition key_of (r : Reading) : jsstring :=
  JS.toString (date_now r) ++ random r.

Definition digit (c : N) : bool := ((48 <=? c) && (c <=? 57))%N.

(** How a number in [[0, 1)] is printed: one digit, then nothing or a
    character that is not a digit ("0", "0.25", "1.5e-7"). *)
Definition fraction (r : jsstring) : bool :=
  match r with
  | d :: rest =>
      digit d && match rest with
                 | [] => true
                 | c :: _ => negb (digit c)
                 end
  | [] => false
  end.

(** The platform never answers the same millisecond and the same random
    number twice. *)
Definition never_repeats (oracle : nat -> Reading) : Prop :=
  forall i j, i <> j ->
    date_now (oracle i) <> date_now (oracle j)
    \/ random (oracle i) <> random (oracle j).

(** [a'] comes after [a]: its transcript, if it shows one, is empty and
    no reading was taken, or it is the transcript of [a] followed by
    entries from the program's calls, one reading each. *)
Definition follows (oracle : nat -> Reading) (a a' : App) : Prop :=
  match room a' with
  | None => True
  | Some s' =>
      (RoomContent.transcripts s' = [] /\ calls (world a') = calls (world a))
      \/ exists s args,
           room a = Some s
           /\ RoomContent.transcripts s' =
              RoomContent.transcripts s
                ++ RoomContent.appended oracle (calls (world a)) args
           /\ calls (world a') = (calls (world a) + List.length args)%nat
           /\ Forall source_args args
  end.

(** The [HomeScreen] state is in order: its error, if any, is one of the
    three messages of the program, and [shouldConnect] is set only with
    both module constants in place. *)
Definition home_ok (cfg : HomeScreen.Config) (h : HomeScreen.State) : Prop :=
  (HomeScreen.error h = None
   \/ HomeScreen.error h = Some HomeScreen.URL_NOT_CONFIGURED
   \/ HomeScreen.error h = Some HomeScreen.JWT_NOT_CONFIGURED
   \/ HomeScreen.error h = Some HomeScreen.AUDIO_FAILED)
  /\ (HomeScreen.shouldConnect h = true ->
      truthy (HomeScreen.LIVEKIT_URL cfg) = true
      /\ truthy (HomeScreen.LIVEKIT_JWT cfg) = true).

(** The session state after an event, as a table: the connect button
    takes Idle to Connecting when both constants are in place, the
    welcome effect takes Connecting to Connected, the disconnect button
    and an audio failure take Connecting and Connected to Idle, and
    nothing else changes the session state. *)
Definition next (cfg : HomeScreen.Config) (st : SessionState) (ev : Event)
  : SessionState :=
  match st with
  | Idle =>
      match ev with
      | ConnectPressed =>
          if truthy (HomeScreen.LIVEKIT_URL cfg)
             && truthy (HomeScreen.LIVEKIT_JWT cfg)
          then Connecting else Idle
      | _ => Idle
      end
  | Connecting =>
      match ev with
      | WelcomeEffect => Connected
      | DisconnectPressed | AudioStartFailed => Idle
      | _ => Connecting
      end
  | Connected =>
      match ev with
      | DisconnectPressed | AudioStartFailed => Idle
      | _ => Connected
      end
  | Failed reason => Failed reason
  end.

(** * Properties *)

(** ** The parser of [JSON.parse] *)

Section JSONFacts.

Import JSON.

Ltac break :=
  match goal with
  | H : context [match ?x with _ => _ end] |- _ => destruct x eqn:?
  end.

Lemma skip_ws_length s : (List.length (skip_ws s) <= List.length s)%nat.
Proof.
  induction s as [|c s IH]; cbn [skip_ws]; [lia|].
  destruct (whitespace c); cbn [List.length]; lia.
Qed.

Lemma string_chars_length n : forall s str r,
  (List.length s <= n)%nat -> string_chars s = Some (str, r) ->
  (List.length r < List.length s)%nat.
Proof.
  induction n as [|n IH]; intros s str r Hn H.
  - destruct s; [discriminate|cbn in Hn; lia].
  - destruct s as [|c s]; [discriminate|]. cbn [string_chars] in H.
    cbn [List.length] in *.
    repeat (break; try discriminate);
      injection H as <- <-;
      try match goal with
        | E : string_chars ?x = Some _ |- _ =>
            apply IH in E; [|subst; cbn [List.length] in *; lia]
        end;
      subst; cbn [List.length] in *; lia.
Qed.

Lemma digits_length s : forall ds r,
  digits s = (ds, r) -> (List.length r <= List.length s)%nat.
Proof.
  induction s as [|c s IH]; intros ds r H; cbn [digits] in H.
  - injection H as <- <-. lia.
  - destruct (between "0" "9" c).
    + destruct (digits s) as [ds' r'] eqn:E. injection H as <- <-.
      specialize (IH _ _ eq_refl). cbn [List.length]. lia.
    + injection H as <- <-. lia.
Qed.

Lemma minus_length s m r : minus s = (m, r) -> (List.length r <= List.length s)%nat.
Proof.
  unfold minus. intros H. repeat (break; try discriminate);
    injection H as <- <-; cbn [List.length]; lia.
Qed.

Lemma sign_length s m r : sign s = (m, r) -> (List.length r <= List.length s)%nat.
Proof.
  unfold sign. intros H. repeat (break; try discriminate);
    injection H as <- <-; cbn [List.length]; lia.
Qed.

Lemma int_length s i r : int s = Some (i, r) -> (List.length r <= List.length s)%nat.
Proof.
  unfold int. intros H. repeat (break; try discriminate);
    injection H as <- <-;
    try match goal with E : digits _ = _ |- _ => apply digits_length in E end;
    cbn [List.length]; lia.
Qed.

Lemma frac_length s i r : frac s = Some (i, r) -> (List.length r <= List.length s)%nat.
Proof.
  unfold frac. intros H. repeat (break; try discriminate);
    injection H as <- <-;
    try match goal with E : digits _ = _ |- _ => apply digits_length in E end;
    cbn [List.length]; lia.
Qed.

Lemma exp_length s i r : exp s = Some (i, r) -> (List.length r <= List.length s)%nat.
Proof.
  unfold exp. intros H. repeat (break; try discriminate);
    injection H as <- <-;
    try match goal with E : digits _ = _ |- _ => apply digits_length in E end;
    try match goal with E : sign _ = _ |- _ => apply sign_length in E end;
    cbn [List.length] in *; lia.
Qed.

Lemma number_length s lexeme r :
  number s = Some (lexeme, r) -> (List.length r <= List.length s)%nat.
Proof.
  unfold number. intros H.
  destruct (minus s) as [m s1] eqn:Em. apply minus_length in Em.
  destruct (int s1) as [[i s2]|] eqn:Ei; [|discriminate]. apply int_length in Ei.
  destruct (frac s2) as [[f s3]|] eqn:Ef; [|discriminate]. apply frac_length in Ef.
  destruct (exp s3) as [[e s4]|] eqn:Ee; [|discriminate]. apply exp_length in Ee.
  injection H as <- <-. lia.
Qed.

Lemma keyword_length w : forall s r,
  keyword w s = Some r -> (List.length r <= List.length s)%nat.
Proof.
  induction w as [|a w IH]; intros s r H; cbn [keyword] in H.
  - injection H as <-. lia.
  - destruct s as [|c s]; [discriminate|].
    destruct (N.eqb a c); [|discriminate].
    apply IH in H. cbn [List.length]. lia.
Qed.

Lemma value_body_shrinking e m :
  shrinking e -> shrinking m -> shrinking (value_body e m).
Proof.
  intros He Hm s v r H. unfold value_body in H.
  pose proof (skip_ws_length s) as Hs.
  destruct (skip_ws s) as [|c r0]; [discriminate|]. cbn [List.length] in Hs.
  destruct (isc "{" c).
  { pose proof (skip_ws_length r0) as Hr.
    destruct (skip_ws r0) as [|c1 r1]; [discriminate|].
    destruct (isc "}" c1).
    - injection H as <- <-. cbn [List.length] in Hr. lia.
    - destruct (m (c1 :: r1)) as [[ms rest]|] eqn:E; [|discriminate].
      apply Hm in E. injection H as <- <-. lia. }
  destruct (isc "[" c).
  { pose proof (skip_ws_length r0) as Hr.
    destruct (skip_ws r0) as [|c1 r1]; [discriminate|].
    destruct (isc "]" c1).
    - injection H as <- <-. cbn [List.length] in Hr. lia.
    - destruct (e (c1 :: r1)) as [[vs rest]|] eqn:E; [|discriminate].
      apply He in E. injection H as <- <-. lia. }
  destruct (N.eqb c QUOTE).
  { destruct (string_chars r0) as [[str rest]|] eqn:E; [|discriminate].
    apply (string_chars_length _ _ _ _ (le_n _)) in E. injection H as <- <-. lia. }
  destruct (isc "t" c).
  { destruct (keyword (lit "rue") r0) eqn:E; [|discriminate].
    apply keyword_length in E. injection H as <- <-. lia. }
  destruct (isc "f" c).
  { destruct (keyword (lit "alse") r0) eqn:E; [|discriminate].
    apply keyword_length in E. injection H as <- <-. lia. }
  destruct (isc "n" c).
  { destruct (keyword (lit "ull") r0) eqn:E; [|discriminate].
    apply keyword_length in E. injection H as <- <-. lia. }
  destruct (number (c :: r0)) as [[lexeme rest]|] eqn:E; [|discriminate].
  apply number_length in E. injection H as <- <-. cbn [List.length] in E. lia.
Qed.

Lemma elements_body_shrinking v e :
  shrinking v -> shrinking e -> shrinking (elements_body v e).
Proof.
  intros Hv He s vs r H. unfold elements_body in H.
  destruct (v s) as [[x r0]|] eqn:E; [|discriminate].
  apply Hv in E. pose proof (skip_ws_length r0) as Hr.
  destruct (skip_ws r0) as [|c r1]; [discriminate|]. cbn [List.length] in Hr.
  destruct (isc "," c).
  - destruct (e r1) as [[vs' rest]|] eqn:E'; [|discriminate].
    apply He in E'. injection H as <- <-. lia.
  - destruct (isc "]" c); [|discriminate]. injection H as <- <-. lia.
Qed.

Lemma members_body_shrinking v m :
  shrinking v -> shrinking m -> shrinking (members_body v m).
Proof.
  intros Hv Hm s ms r H. unfold members_body in H.
  pose proof (skip_ws_length s) as Hs.
  destruct (skip_ws s) as [|q r0]; [discriminate|]. cbn [List.length] in Hs.
  destruct (N.eqb q QUOTE); [|discriminate].
  destruct (string_chars r0) as [[key r1]|] eqn:E; [|discriminate].
  apply (string_chars_length _ _ _ _ (le_n _)) in E.
  pose proof (skip_ws_length r1) as Hr1.
  destruct (skip_ws r1) as [|c r2]; [discriminate|]. cbn [List.length] in Hr1.
  destruct (isc ":" c); [|discriminate].
  destruct (v r2) as [[x r3]|] eqn:Ev; [|discriminate].
  apply Hv in Ev. pose proof (skip_ws_length r3) as Hr3.
  destruct (skip_ws r3) as [|d r4]; [discriminate|]. cbn [List.length] in Hr3.
  destruct (isc "," d).
  - destruct (m r4) as [[ms' rest]|] eqn:E'; [|discriminate].
    apply Hm in E'. injection H as <- <-. lia.
  - destruct (isc "}" d); [|discriminate]. injection H as <- <-. lia.
Qed.

Lemma parsers_shrinking f :
  shrinking (parse_value f) /\ shrinking (parse_elements f)
  /\ shrinking (parse_members f).
Proof.
  induction f as [|f (IHv & IHe & IHm)].
  - repeat split; intros s x r H; discriminate.
  - cbn [parse_value parse_elements parse_members].
    auto using value_body_shrinking, elements_body_shrinking,
      members_body_shrinking.
Qed.

Lemma value_body_agree e e' m m' s :
  agree_below (List.length s) e e' -> agree_below (List.length s) m m' ->
  value_body e m s = value_body e' m' s.
Proof.
  intros He Hm. unfold value_body.
  pose proof (skip_ws_length s) as Hs.
  destruct (skip_ws s) as [|c r0]; [reflexivity|]. cbn [List.length] in Hs.
  pose proof (skip_ws_length r0) as Hr.
  destruct (isc "{" c).
  { destruct (skip_ws r0) as [|c1 r1]; [reflexivity|].
    destruct (isc "}" c1); [reflexivity|]. rewrite Hm; [reflexivity|lia]. }
  destruct (isc "[" c); [|reflexivity].
  destruct (skip_ws r0) as [|c1 r1]; [reflexivity|].
  destruct (isc "]" c1); [reflexivity|]. rewrite He; [reflexivity|lia].
Qed.

Lemma elements_body_agree v v' e e' s :
  shrinking v -> v s = v' s -> agree_below (List.length s) e e' ->
  elements_body v e s = elements_body v' e' s.
Proof.
  intros Hsh Hv He. unfold elements_body. rewrite <- Hv.
  destruct (v s) as [[x r0]|] eqn:E; [|reflexivity].
  apply Hsh in E. pose proof (skip_ws_length r0) as Hr.
  destruct (skip_ws r0) as [|c r1]; [reflexivity|]. cbn [List.length] in Hr.
  destruct (isc "," c); [|reflexivity]. rewrite He; [reflexivity|lia].
Qed.

Lemma members_body_agree v v' m m' s :
  shrinking v -> agree_below (List.length s) v v' ->
  agree_below (List.length s) m m' ->
  members_body v m s = members_body v' m' s.
Proof.
  intros Hsh Hv Hm. unfold members_body.
  pose proof (skip_ws_length s) as Hs.
  destruct (skip_ws s) as [|q r0]; [reflexivity|]. cbn [List.length] in Hs.
  destruct (N.eqb q QUOTE); [|reflexivity].
  destruct (string_chars r0) as [[key r1]|] eqn:E; [|reflexivity].
  apply (string_chars_length _ _ _ _ (le_n _)) in E.
  pose proof (skip_ws_length r1) as Hr1.
  destruct (skip_ws r1) as [|c r2]; [reflexivity|]. cbn [List.length] in Hr1.
  destruct (isc ":" c); [|reflexivity].
  rewrite <- Hv by lia.
  destruct (v r2) as [[x r3]|] eqn:Ev; [|reflexivity].
  apply Hsh in Ev. pose proof (skip_ws_length r3) as Hr3.
  destruct (skip_ws r3) as [|d r4]; [reflexivity|]. cbn [List.length] in Hr3.
  destruct (isc "," d); [|reflexivity]. rewrite Hm; [reflexivity|lia].
Qed.

(** More fuel than the bound changes nothing. *)
Lemma fuel_stable f :
  (forall s, (2 * List.length s + 2 <= f)%nat ->
             parse_value (S f) s = parse_value f s)
  /\ (forall s, (2 * List.length s + 3 <= f)%nat ->
                parse_elements (S f) s = parse_elements f s)
  /\ (forall s, (2 * List.length s + 3 <= f)%nat ->
                parse_members (S f) s = parse_members f s).
Proof.
  induction f as [|f (IHv & IHe & IHm)]; [repeat split; intros; lia|].
  destruct (parsers_shrinking (S f)) as (Sv & _ & _).
  split; [|split]; intros s Hb.
  - change (value_body (parse_elements (S f)) (parse_members (S f)) s
            = value_body (parse_elements f) (parse_members f) s).
    apply value_body_agree; intros s' Hs'; [apply IHe|apply IHm]; lia.
  - change (elements_body (parse_value (S f)) (parse_elements (S f)) s
            = elements_body (parse_value f) (parse_elements f) s).
    apply elements_body_agree; [exact Sv|apply IHv; lia|].
    intros s' Hs'. apply IHe. lia.
  - change (members_body (parse_value (S f)) (parse_members (S f)) s
            = members_body (parse_value f) (parse_members f) s).
    apply members_body_agree; [exact Sv| |]; intros s' Hs';
      [apply IHv|apply IHm]; lia.
Qed.

Lemma value_body_below e e' m m' :
  below e e' -> below m m' -> below (value_body e m) (value_body e' m').
Proof.
  intros He Hm s x. unfold value_body.
  destruct (skip_ws s) as [|c r0]; [discriminate|].
  destruct (isc "{" c).
  { destruct (skip_ws r0) as [|c1 r1]; [discriminate|].
    destruct (isc "}" c1); [auto|].
    destruct (m (c1 :: r1)) as [[ms rest]|] eqn:E; [|discriminate].
    now rewrite (Hm _ _ E). }
  destruct (isc "[" c); [|auto].
  destruct (skip_ws r0) as [|c1 r1]; [discriminate|].
  destruct (isc "]" c1); [auto|].
  destruct (e (c1 :: r1)) as [[vs rest]|] eqn:E; [|discriminate].
  now rewrite (He _ _ E).
Qed.

Lemma elements_body_below v v' e e' :
  below v v' -> below e e' -> below (elements_body v e) (elements_body v' e').
Proof.
  intros Hv He s x. unfold elements_body.
  destruct (v s) as [[y r0]|] eqn:E; [|discriminate]. rewrite (Hv _ _ E).
  destruct (skip_ws r0) as [|c r1]; [discriminate|].
  destruct (isc "," c); [|auto].
  destruct (e r1) as [[vs rest]|] eqn:E'; [|discriminate].
  now rewrite (He _ _ E').
Qed.

Lemma members_body_below v v' m m' :
  below v v' -> below m m' -> below (members_body v m) (members_body v' m').
Proof.
  intros Hv Hm s x. unfold members_body.
  destruct (skip_ws s) as [|q r0]; [discriminate|].
  destruct (N.eqb q QUOTE); [|discriminate].
  destruct (string_chars r0) as [[key r1]|]; [|discriminate].
  destruct (skip_ws r1) as [|c r2]; [discriminate|].
  destruct (isc ":" c); [|discriminate].
  destruct (v r2) as [[y r3]|] eqn:E; [|discriminate]. rewrite (Hv _ _ E).
  destruct (skip_ws r3) as [|d r4]; [discriminate|].
  destruct (isc "," d); [|auto].
  destruct (m r4) as [[ms rest]|] eqn:E'; [|discriminate].
  now rewrite (Hm _ _ E').
Qed.

(** More fuel never loses a result. *)
Lemma fuel_mono f :
  below (parse_value f) (parse_value (S f))
  /\ below (parse_elements f) (parse_elements (S f))
  /\ below (parse_members f) (parse_members (S f)).
Proof.
  induction f as [|f (IHv & IHe & IHm)].
  - repeat split; intros s x H; discriminate.
  - split; [|split].
    + apply (value_body_below _ _ _ _ IHe IHm).
    + apply (elements_body_below _ _ _ _ IHv IHe).
    + apply (members_body_below _ _ _ _ IHv IHm).
Qed.

Lemma fuel_mono_le f g : (f <= g)%nat -> below (parse_value f) (parse_value g).
Proof.
  induction 1 as [|g _ IH]; intros s x H; [exact H|].
  now apply (proj1 (fuel_mono g)), IH.
Qed.

Lemma fuel_stable_le s f :
  (2 * List.length s + 2 <= f)%nat ->
  parse_value f s = parse_value (2 * List.length s + 2) s.
Proof.
  induction 1 as [|f Hle IH]; [reflexivity|].
  now rewrite (proj1 (fuel_stable f) s Hle).
Qed.

(** The bound of [parse] is enough: a value found with any fuel is found
    with [2 * length s + 2]. *)
Lemma parse_value_enough f s x :
  parse_value f s = Some x ->
  parse_value (2 * List.length s + 2) s = Some x.
Proof.
  intros H. destruct (Nat.le_ge_cases f (2 * List.length s + 2)) as [Hle|Hge].
  - exact (fuel_mono_le _ _ Hle _ _ H).
  - now rewrite <- (fuel_stable_le s f Hge).
Qed.

(** [parse] finds a value exactly when some bound of the nesting lets
    the grammar derive it for the whole text. *)
Lemma parse_complete text v :
  parse text = Some v <->
  exists f rest, parse_value f text = Some (v, rest) /\ skip_ws rest = [].
Proof.
  unfold parse. split.
  - destruct (parse_value _ text) as [[v' rest]|] eqn:E; [|discriminate].
    destruct (skip_ws rest) eqn:W; [|discriminate].
    intros [= <-]. eauto.
  - intros (f & rest & H & W). now rewrite (parse_value_enough _ _ _ H), W.
Qed.

End JSONFacts.

(** ** The store monad *)

Section RoomContentFacts.

Import RoomContent.

Variable oracle : nat -> Reading.

Lemma exec_bind {A B} (m : M A) (k : A -> M B) st :
  exec (bind m k) st = exec (k (fst (m st))) (snd (m st)).
Proof. unfold exec, bind. destruct (m st); reflexivity. Qed.

Lemma exec_add t p u w s :
  exec (addTranscriptMessage oracle t p u) (w, s) =
  (mkWorld (S (calls w)) (console w),
   mkState (transcripts s ++ [newMessage (oracle (calls w)) t p u])
     (isInitialized s)).
Proof. reflexivity. Qed.

Lemma length_appended k args :
  List.length (appended oracle k args) = List.length args.
Proof.
  revert k; induction args as [|[[t p] u] rest IH]; intros k; simpl; auto.
Qed.

Lemma exec_forEach_add {A} (f : A -> any * jsstring * bool) (l : list A) w s :
  exec (forEach l (fun x =>
          addTranscriptMessage oracle (fst (fst (f x))) (snd (fst (f x))) (snd (f x))))
       (w, s) =
  (mkWorld (calls w + List.length l) (console w),
   mkState (transcripts s ++ appended oracle (calls w) (List.map f l)) (isInitialized s)).
Proof.
  revert w s; induction l as [|x rest IH]; intros w s.
  - simpl. unfold exec, ret. simpl. rewrite Nat.add_0_r, app_nil_r.
    destruct w, s; reflexivity.
  - cbn [forEach]. rewrite exec_bind.
    change (snd (addTranscriptMessage oracle (fst (fst (f x)))
                   (snd (fst (f x))) (snd (f x)) (w, s)))
      with (exec (addTranscriptMessage oracle (fst (fst (f x)))
                   (snd (fst (f x))) (snd (f x))) (w, s)).
    rewrite exec_add, IH. cbn [calls console transcripts isInitialized].
    cbn [List.map List.length appended].
    destruct (f x) as [[t p] u]. cbn [fst snd appended].
    rewrite <- app_assoc. cbn [app].
    f_equal. f_equal. lia.
Qed.

End RoomContentFacts.

Section TranscriptLog.

Import RoomContent.

Variable oracle : nat -> Reading.



End TranscriptLog.

(** ** Timestamps *)

Section Timestamps.

Import RoomContent.

Variable cfg : HomeScreen.Config.
Variable oracle : nat -> Reading.

Lemma StronglySorted_snoc (l : list Z) (x : Z) :
  StronglySorted Z.le l -> Forall (fun y => (y <= x)%Z) l ->
  StronglySorted Z.le (l ++ [x]).
Proof.
  induction 1 as [|a l Hl IH Ha]; intros Hx; simpl.
  - repeat constructor.
  - inversion Hx; subst. constructor; auto.
    apply Forall_app; split; auto.
Qed.

Lemma StronglySorted_monotone (l : list TranscriptMessage) :
  StronglySorted Z.le (List.map timestamp l) -> monotone l.
Proof.
  induction l as [|a l IH]; intros Hs i m m' Hi Hi'.
  - destruct i; discriminate.
  - simpl in Hs. inversion Hs as [|? ? Hl Ha]; subst.
    destruct i as [|i]; simpl in Hi, Hi'.
    + injection Hi as <-. destruct l as [|b l]; [discriminate|].
      injection Hi' as <-. now inversion Ha.
    + eapply IH; eauto.
Qed.

Lemma welcomeEffect_extends st : extends oracle st (exec (welcomeEffect oracle) st).
Proof.
  destruct st as [w s]. unfold welcomeEffect.
  rewrite exec_bind. cbn [getIsInitialized fst snd].
  destruct (isInitialized s); cbn [negb].
  - exists []. cbn. rewrite app_nil_r. repeat split; auto; lia.
  - exists [(str WELCOME, System, false)]. cbn. repeat split; auto; lia.
Qed.

Lemma participantsEffect_extends ps st :
  extends oracle st (exec (participantsEffect oracle ps) st).
Proof.
  destruct st as [w s]. unfold participantsEffect.
  destruct (0 <? List.length ps)%nat.
  - rewrite exec_bind. cbn [log fst snd].
    rewrite (exec_forEach_add oracle (fun p => (str (announcement p), System, false))).
    eexists. cbn [fst snd calls transcripts isInitialized].
    repeat split; auto. now rewrite length_map.
  - exists []. cbn. rewrite app_nil_r. repeat split; auto; lia.
Qed.

Lemma log_extends l st : extends oracle st (exec (log l) st).
Proof.
  destruct st as [w s]. exists []. cbn. rewrite app_nil_r. repeat split; auto; lia.
Qed.

Lemma handleDataReceived_extends payload participant st :
  extends oracle st (exec (handleDataReceived oracle payload participant) st).
Proof.
  unfold handleDataReceived.
  destruct (JSON.parse _) as [data|]; [|apply log_extends].
  rewrite exec_bind. destruct st as [w s]. cbn [log fst snd].
  set (w' := mkWorld _ _).
  assert (Hlog : forall l, extends oracle (w, s) (exec (log l) (w', s))).
  { intros l. exists []. cbn. rewrite app_nil_r. repeat split; auto; lia. }
  destruct (get data (lit "type")) as [type|]; [|apply Hlog].
  destruct (strict_eq type (lit "transcription")).
  - destruct (get data (lit "text")) as [t|]; [|apply Hlog].
    rewrite exec_add.
    exists [(t, speaker_of participant, isUser_of participant)].
    cbn. repeat split; auto; lia.
  - exists []. cbn. rewrite app_nil_r. repeat split; auto; lia.
Qed.

Hypothesis clock_forward :
  forall n, (new_date (oracle n) <= new_date (oracle (S n)))%Z.

Lemma clock_le i j : (i <= j)%nat -> (new_date (oracle i) <= new_date (oracle j))%Z.
Proof.
  induction 1 as [|j _ IH]; [lia|].
  etransitivity; [exact IH|apply clock_forward].
Qed.

Lemma stamped_weaken k k' l : (k <= k')%nat -> stamped oracle k l -> stamped oracle k' l.
Proof.
  intros Hk [Hs Hf]. split; auto.
  eapply Forall_impl; [|exact Hf].
  intros m (j & Hj & E). exists j. split; [lia|exact E].
Qed.

Lemma stamped_appended args : forall k l,
  stamped oracle k l ->
  stamped oracle (k + List.length args) (l ++ appended oracle k args).
Proof.
  induction args as [|[[t p] u] rest IH]; intros k l Hl.
  - cbn. rewrite app_nil_r, Nat.add_0_r. exact Hl.
  - cbn [appended List.length].
    replace (l ++ newMessage (oracle k) t p u :: appended oracle (S k) rest)
      with ((l ++ [newMessage (oracle k) t p u]) ++ appended oracle (S k) rest)
      by (now rewrite <- app_assoc).
    replace (k + S (List.length rest))%nat with (S k + List.length rest)%nat by lia.
    apply IH. destruct Hl as [Hs Hf]. split.
    + rewrite map_app. cbn [List.map]. apply StronglySorted_snoc; auto.
      rewrite Forall_map. eapply Forall_impl; [|exact Hf].
      intros m (j & Hj & E). cbn. rewrite E. apply clock_le. lia.
    + apply Forall_app. split.
      * eapply Forall_impl; [|exact Hf].
        intros m (j & Hj & E). exists j. split; [lia|exact E].
      * repeat constructor. exists k. split; [lia|reflexivity].
Qed.

Lemma stamped_nil k : stamped oracle k [].
Proof. split; constructor. Qed.

Lemma commit_in_order h r w :
  in_order oracle (mkApp h r w) -> in_order oracle (commit (mkApp h r w)).
Proof.
  unfold commit, in_order. cbn [home room world].
  destruct (HomeScreen.rendersRoom h); cbn [room]; auto.
  destruct r; cbn [room world]; auto.
  intros _. apply stamped_nil.
Qed.

Lemma inRoom_in_order m a :
  (forall st, extends oracle st (exec m st)) ->
  in_order oracle a -> in_order oracle (inRoom m a).
Proof.
  intros Hm. unfold in_order, inRoom.
  destruct (room a) as [s|] eqn:E; [|now rewrite E].
  intros Hs. specialize (Hm (world a, s)).
  destruct (exec m (world a, s)) as [w' s'].
  destruct Hm as (args & Ht & Hc & _). cbn [fst snd] in Ht, Hc.
  cbn [room world]. rewrite Ht, Hc. now apply stamped_appended.
Qed.

Lemma step_in_order ev a : in_order oracle a -> in_order oracle (step cfg oracle ev a).
Proof.
  intros Ha. destruct ev; cbn [step].
  - destruct (HomeScreen.rendersRoom (home a)); auto.
    apply commit_in_order. exact Ha.
  - destruct (room a) eqn:E; auto.
    apply commit_in_order. unfold in_order in *. cbn [room world]. now rewrite E in Ha.
  - unfold in_order, inRoom in *. destruct (room a) as [s|] eqn:E; [|now rewrite E].
    cbn. apply stamped_nil.
  - apply inRoom_in_order; auto using welcomeEffect_extends.
  - apply inRoom_in_order; auto using participantsEffect_extends.
  - apply inRoom_in_order; auto using handleDataReceived_extends.
  - exact Ha.
  - apply commit_in_order. exact Ha.
Qed.

Lemma run_in_order evs : forall a, in_order oracle a -> in_order oracle (run cfg oracle evs a).
Proof.
  induction evs as [|ev evs IH]; intros a Ha; cbn; auto.
  apply IH, step_in_order, Ha.
Qed.

End Timestamps.

(** C2 fails as stated: the code does not clamp.  With a clock set back
    after the first append, the second entry is stamped earlier than the
    first. *)
Lemma clock_set_back_breaks_order :
  let a := run Sample.configured Sample.set_back
             [ConnectPressed; WelcomeEffect;
              ParticipantsChanged [Sample.assistant]] initial in
  option_map (List.map timestamp) (snapshot a) = Some [1000; 400]%Z
  /\ ~ (forall s, snapshot a = Some s -> monotone s).
Proof.
  cbv zeta. split; [reflexivity|].
  intros H. specialize (H _ eq_refl).
  specialize (H 0%nat _ _ eq_refl eq_refl). cbn in H. lia.
Qed.

(** ** The session *)

Section Session.

Variable cfg : HomeScreen.Config.
Variable oracle : nat -> Reading.

Lemma Idle_inv a : sessionState a = Idle -> HomeScreen.rendersRoom (home a) = false.
Proof.
  unfold sessionState. destruct (HomeScreen.rendersRoom (home a)); auto.
  destruct (room a) as [s|]; [destruct (RoomContent.isInitialized s)|]; discriminate.
Qed.

Lemma Connected_inv a :
  sessionState a = Connected ->
  HomeScreen.rendersRoom (home a) = true
  /\ exists s, room a = Some s /\ RoomContent.isInitialized s = true.
Proof.
  unfold sessionState. destruct (HomeScreen.rendersRoom (home a)); [|discriminate].
  destruct (room a) as [s|]; [|discriminate].
  destruct (RoomContent.isInitialized s) eqn:E; [|discriminate].
  intros _. split; auto. now exists s.
Qed.

Lemma Connecting_inv a :
  rendered a -> sessionState a = Connecting ->
  HomeScreen.rendersRoom (home a) = true
  /\ exists s, room a = Some s /\ RoomContent.isInitialized s = false.
Proof.
  unfold sessionState, rendered. intros [Hr _].
  destruct (HomeScreen.rendersRoom (home a)); [|discriminate].
  destruct (room a) as [s|]; [|now specialize (Hr eq_refl)].
  destruct (RoomContent.isInitialized s) eqn:E; [discriminate|].
  intros _. split; auto. now exists s.
Qed.

Lemma rendersRoom_setError e h :
  truthy (Some e) = true ->
  HomeScreen.rendersRoom (HomeScreen.setError (Some e) h) = false.
Proof.
  intros He. unfold HomeScreen.rendersRoom. cbn [HomeScreen.setError HomeScreen.error].
  rewrite He. apply andb_false_r.
Qed.

(** C1.  On the idle screen, [connectToRoom] with no server URL sets the
    error to the missing-URL message and changes nothing else; with a
    URL and no token it sets the missing-token message and changes
    nothing else; in both cases the session stays Idle.  With both it
    clears the error, sets [shouldConnect], and the session is
    Connecting. *)
Theorem connect_validates (a : App) :
  rendered a -> sessionState a = Idle ->
  let a' := step cfg oracle ConnectPressed a in
  (truthy (HomeScreen.LIVEKIT_URL cfg) = false ->
     a' = mkApp (HomeScreen.setError (Some HomeScreen.URL_NOT_CONFIGURED) (home a))
            (room a) (world a)
     /\ sessionState a' = Idle)
  /\ (truthy (HomeScreen.LIVEKIT_URL cfg) = true ->
      truthy (HomeScreen.LIVEKIT_JWT cfg) = false ->
     a' = mkApp (HomeScreen.setError (Some HomeScreen.JWT_NOT_CONFIGURED) (home a))
            (room a) (world a)
     /\ sessionState a' = Idle)
  /\ (truthy (HomeScreen.LIVEKIT_URL cfg) = true ->
      truthy (HomeScreen.LIVEKIT_JWT cfg) = true ->
     home a' = HomeScreen.mkState true None
     /\ room a' = Some RoomContent.fresh
     /\ world a' = world a
     /\ sessionState a' = Connecting).
Proof.
  intros Hr Hidle. apply Idle_inv in Hidle.
  assert (Hroom : room a = None) by (now apply Hr).
  cbv zeta. cbn [step]. rewrite Hidle. unfold HomeScreen.connectToRoom.
  split; [|split].
  - intros Hurl. rewrite Hurl. cbn [negb].
    unfold sessionState, commit. cbn [home room world].
    rewrite rendersRoom_setError by reflexivity. cbn [home].
    rewrite rendersRoom_setError by reflexivity. now rewrite Hroom.
  - intros Hurl Hjwt. rewrite Hurl, Hjwt. cbn [negb].
    unfold sessionState, commit. cbn [home room world].
    rewrite rendersRoom_setError by reflexivity. cbn [home].
    rewrite rendersRoom_setError by reflexivity. now rewrite Hroom.
  - intros Hurl Hjwt. rewrite Hurl, Hjwt. cbn [negb].
    unfold sessionState, commit. cbn. now rewrite Hroom.
Qed.

Lemma commit_rendered a : rendered (commit a).
Proof.
  unfold rendered, commit.
  destruct (HomeScreen.rendersRoom (home a)) eqn:E.
  - destruct (room a) eqn:R; cbn [room home]; rewrite ?R, E; split; discriminate.
  - cbn [room home]. now rewrite E.
Qed.

Lemma inRoom_rendered m a : rendered a -> rendered (inRoom m a).
Proof.
  unfold rendered, inRoom. destruct (room a) as [s|] eqn:R; [|now rewrite R].
  destruct (RoomContent.exec m (world a, s)) as [w' s']. cbn [room home].
  intros [H1 H2]. split; [discriminate|]. intros E. now specialize (H2 E).
Qed.

Lemma step_rendered ev a : rendered a -> rendered (step cfg oracle ev a).
Proof.
  intros Ha. destruct ev; cbn [step];
    auto using commit_rendered, inRoom_rendered.
  - destruct (HomeScreen.rendersRoom (home a)); auto using commit_rendered.
  - destruct (room a); auto using commit_rendered.
Qed.

(** Every state the application reaches is [rendered]. *)
Lemma run_rendered evs : forall a, rendered a -> rendered (run cfg oracle evs a).
Proof.
  induction evs as [|ev evs IH]; intros a Ha; cbn; auto.
  apply IH, step_rendered, Ha.
Qed.

Lemma inRoom_mounted m a s :
  room a = Some s ->
  inRoom m a =
  mkApp (home a) (Some (snd (RoomContent.exec m (world a, s))))
    (fst (RoomContent.exec m (world a, s))).
Proof.
  intros R. unfold inRoom. rewrite R.
  now destruct (RoomContent.exec m (world a, s)).
Qed.

Lemma exec_welcome w s :
  RoomContent.exec (RoomContent.welcomeEffect oracle) (w, s) =
  if RoomContent.isInitialized s then (w, s)
  else (mkWorld (S (calls w)) (console w),
        RoomContent.mkState
          (RoomContent.transcripts s ++
             [RoomContent.newMessage (oracle (calls w))
                (str RoomContent.WELCOME) RoomContent.System false])
          true).
Proof.
  unfold RoomContent.welcomeEffect. rewrite exec_bind.
  cbn [RoomContent.getIsInitialized fst snd].
  destruct (RoomContent.isInitialized s); reflexivity.
Qed.


(** C6, as the code has it.  [disconnect] clears [shouldConnect]: the
    session is Idle, [RoomContent] is unmounted and its transcript is
    gone with it, so that a later connect starts from the empty
    transcript.  While [RoomContent] stays mounted, every event other
    than the clear button leaves the entries that were there in place
    and can only add entries after them. *)
Theorem disconnect_unmounts (a : App) (s : RoomContent.State) :
  rendered a -> room a = Some s ->
  let a' := step cfg oracle DisconnectPressed a in
  a' = mkApp (HomeScreen.setShouldConnect false (home a)) None (world a)
  /\ sessionState a' = Idle
  /\ snapshot a' = None
  /\ (sessionState (step cfg oracle ConnectPressed a') = Connecting ->
      snapshot (step cfg oracle ConnectPressed a') = Some [])
  /\ (forall ev s', ev <> ClearPressed ->
        room (step cfg oracle ev a) = Some s' ->
        exists new,
          RoomContent.transcripts s' = RoomContent.transcripts s ++ new).
Proof.
  intros Hr R. cbv zeta.
  assert (Hrender : HomeScreen.rendersRoom (home a) = true).
  { destruct (HomeScreen.rendersRoom (home a)) eqn:E; auto.
    apply Hr in E. congruence. }
  assert (Ha' : step cfg oracle DisconnectPressed a
                = mkApp (HomeScreen.setShouldConnect false (home a)) None (world a)).
  { cbn [step]. rewrite R. reflexivity. }
  rewrite Ha'. split; [reflexivity|]. split; [reflexivity|]. split; [reflexivity|].
  split.
  - cbn [step home room world]. cbn [HomeScreen.rendersRoom HomeScreen.setShouldConnect
      HomeScreen.shouldConnect andb].
    unfold sessionState, commit, snapshot. cbn [home room world].
    destruct (HomeScreen.rendersRoom (HomeScreen.connectToRoom cfg _)) eqn:E;
      cbn [home room]; rewrite ?E; [reflexivity|discriminate].
  - assert (Hop : forall m s',
              (forall st, extends oracle st (RoomContent.exec m st)) ->
              room (inRoom m a) = Some s' ->
              exists new,
                RoomContent.transcripts s' = RoomContent.transcripts s ++ new).
    { intros m s' Hm. rewrite (inRoom_mounted _ _ _ R). cbn [room].
      intros [= <-]. destruct (Hm (world a, s)) as (args & Ht & _).
      cbn [fst snd] in Ht. rewrite Ht. eauto. }
    intros [| | | |ps|payload q|reason|] s' Hev; cbn [step].
    + rewrite Hrender, R. intros [= <-]. exists []. now rewrite app_nil_r.
    + rewrite R. discriminate.
    + congruence.
    + apply Hop, welcomeEffect_extends.
    + apply Hop, participantsEffect_extends.
    + apply Hop, handleDataReceived_extends.
    + rewrite R. intros [= <-]. exists []. now rewrite app_nil_r.
    + unfold commit. cbn [home room world].
      rewrite rendersRoom_setError by reflexivity. discriminate.
Qed.

(** No state of the application is a Failed session. *)
Lemma never_Failed a r : sessionState a <> Failed r.
Proof.
  unfold sessionState. destruct (HomeScreen.rendersRoom (home a)); [|discriminate].
  destruct (room a) as [s|]; [destruct (RoomContent.isInitialized s)|]; discriminate.
Qed.

(** C7, as the code has it.  No listener is registered for a failure of
    the room: when one is reported the application does not change, so
    the session state stays what it was (it is never Failed), the
    transcript is unchanged, and [connectToRoom] after it leaves a
    Connected session Connected. *)
Theorem session_failure_unobserved (reason : jsstring) (a : App) :
  let a' := step cfg oracle (SessionFailed reason) a in
  a' = a
  /\ sessionState a' = sessionState a
  /\ snapshot a' = snapshot a
  /\ sessionState a' <> Failed reason
  /\ (sessionState a = Connected ->
      sessionState (step cfg oracle ConnectPressed a') = Connected).
Proof.
  cbv zeta. cbn [step]. repeat split; auto using never_Failed.
  intros Hc. destruct (Connected_inv a Hc) as (Hrender & _).
  now rewrite Hrender.
Qed.

End Session.

Lemma rendered_initial : rendered initial.
Proof. split; reflexivity. Qed.

Lemma connect_validates_witness :
  (rendered initial /\ sessionState initial = Idle)
  /\ sessionState (step Sample.no_url Sample.forward ConnectPressed initial) = Idle
  /\ sessionState (step Sample.no_token Sample.forward ConnectPressed initial) = Idle
  /\ sessionState (step Sample.configured Sample.forward ConnectPressed initial)
     = Connecting.
Proof.
  split; [split; [exact rendered_initial|reflexivity]|].
  split; [|split].
  - exact (proj2 (proj1 (connect_validates Sample.no_url Sample.forward initial
                           rendered_initial eq_refl) eq_refl)).
  - exact (proj2 (proj1 (proj2 (connect_validates Sample.no_token Sample.forward
                                  initial rendered_initial eq_refl))
                    eq_refl eq_refl)).
  - exact (proj2 (proj2 (proj2 (proj2 (proj2
             (connect_validates Sample.configured Sample.forward initial
                rendered_initial eq_refl)) eq_refl eq_refl)))).
Defined.

Lemma rendered_connecting :
  rendered (step Sample.configured Sample.forward ConnectPressed initial).
Proof. split; discriminate. Qed.

Lemma rendered_connected : rendered Sample.connected.
Proof. split; discriminate. Qed.



Lemma disconnect_unmounts_witness :
  (rendered Sample.connected
   /\ room Sample.connected = Some (roomState Sample.connected))
  /\ sessionState
       (step Sample.configured Sample.forward DisconnectPressed Sample.connected)
     = Idle
  /\ snapshot
       (step Sample.configured Sample.forward DisconnectPressed Sample.connected)
     = None.
Proof.
  split; [split; [exact rendered_connected|reflexivity]|].
  pose proof (disconnect_unmounts Sample.configured Sample.forward
                Sample.connected (roomState Sample.connected)
                rendered_connected eq_refl) as H.
  cbv zeta in H. split; [exact (proj1 (proj2 H))|exact (proj1 (proj2 (proj2 H)))].
Defined.

(** C6 fails as stated: after one append and a disconnect the entry is
    no longer in the transcript, and connecting again shows an empty
    transcript although the clear button was never pressed. *)
Lemma disconnect_discards_transcript :
  let a := Sample.connected in
  let a' := step Sample.configured Sample.forward DisconnectPressed a in
  let a'' := step Sample.configured Sample.forward ConnectPressed a' in
  option_map (@List.length _) (snapshot a) = Some 1%nat
  /\ sessionState a' = Idle
  /\ snapshot a' <> snapshot a
  /\ snapshot a'' = Some []
  /\ snapshot a'' <> snapshot a.
Proof.
  cbv zeta. repeat split; discriminate.
Qed.

Lemma session_failure_unobserved_witness :
  sessionState Sample.connected = Connected
  /\ sessionState
       (step Sample.configured Sample.forward ConnectPressed
          (step Sample.configured Sample.forward
             (SessionFailed (lit "network-lost")) Sample.connected))
     = Connected.
Proof.
  split; [reflexivity|].
  exact (proj2 (proj2 (proj2 (proj2
           (session_failure_unobserved Sample.configured Sample.forward
              (lit "network-lost") Sample.connected)))) eq_refl).
Defined.

(** C7 fails as stated: after a failure reported while Connected the
    session is still Connected, not Failed. *)
Lemma failure_leaves_connected :
  let a := Sample.connected in
  let a' := step Sample.configured Sample.forward
              (SessionFailed (lit "network-lost")) a in
  sessionState a = Connected
  /\ sessionState a' = Connected
  /\ sessionState a' <> Failed (lit "network-lost").
Proof.
  cbv zeta. repeat split. discriminate.
Qed.

(** ** Events of the room *)

Section RoomEvents.

Variable cfg : HomeScreen.Config.
Variable oracle : nat -> Reading.

Lemma eqb_eq (a b : jsstring) : JS.eqb a b = true <-> a = b.
Proof.
  revert b; induction a as [|x a IH]; intros [|y b]; cbn; split;
    try discriminate; auto.
  - intros H. apply andb_true_iff in H as [Hx Hab].
    apply N.eqb_eq in Hx. apply IH in Hab. now subst.
  - intros [= -> ->]. rewrite N.eqb_refl. now apply IH.
Qed.

Lemma exec_handle_transcription payload participant w s props :
  JSON.parse (TextDecoder.decode payload) = Some (JSON.Object props) ->
  JSON.lookup (lit "type") props = Some (JSON.String (lit "transcription")) ->
  RoomContent.exec (RoomContent.handleDataReceived oracle payload participant) (w, s) =
  (mkWorld (S (calls w)) (console w ++ [DataReceived (JSON.Object props)]),
   RoomContent.mkState
     (RoomContent.transcripts s ++
        [RoomContent.newMessage (oracle (calls w))
           (JSON.lookup (lit "text") props)
           (RoomContent.speaker_of participant)
           (RoomContent.isUser_of participant)])
     (RoomContent.isInitialized s)).
Proof.
  intros Hparse Htype. unfold RoomContent.handleDataReceived.
  rewrite Hparse, exec_bind. cbn [get RoomContent.log fst snd].
  rewrite Htype. reflexivity.
Qed.



(** The entry of a transcription event. *)
Lemma transcription_entry payload participant a s props :
  room a = Some s ->
  JSON.parse (TextDecoder.decode payload) = Some (JSON.Object props) ->
  JSON.lookup (lit "type") props = Some (JSON.String (lit "transcription")) ->
  snapshot (step cfg oracle (DataArrived payload participant) a) =
  Some (RoomContent.transcripts s ++
          [RoomContent.newMessage (oracle (calls (world a)))
             (JSON.lookup (lit "text") props)
             (RoomContent.speaker_of participant)
             (RoomContent.isUser_of participant)]).
Proof.
  intros R Hparse Htype. cbn [step].
  rewrite (inRoom_mounted _ _ _ R),
    (exec_handle_transcription _ _ _ _ _ Hparse Htype).
  reflexivity.
Qed.

(** C5, as the code has it.  A transcription event received while the
    room screen is mounted appends one entry.  Its [isUser] is true
    exactly when the sender is absent or has the identity "user"; its
    participant is the sender's identity when there is a sender with a
    non-empty identity, and "User" otherwise; it is shown as "You" when
    [isUser] is true and under its participant otherwise. *)
Theorem transcription_speaker (payload : list byte)
  (sender : option Participant) (a : App) (s : RoomContent.State)
  (props : list (jsstring * JSON.value)) :
  room a = Some s ->
  JSON.parse (TextDecoder.decode payload) = Some (JSON.Object props) ->
  JSON.lookup (lit "type") props = Some (JSON.String (lit "transcription")) ->
  exists m,
    snapshot (step cfg oracle (DataArrived payload sender) a)
    = Some (RoomContent.transcripts s ++ [m])
    /\ text m = JSON.lookup (lit "text") props
    /\ (isUser m = true <->
        sender = None \/ option_map identity sender = Some (lit "user"))
    /\ participant m = match sender with
                       | Some p => match identity p with
                                   | [] => lit "User"
                                   | _ :: _ => identity p
                                   end
                       | None => lit "User"
                       end
    /\ (isUser m = true -> RoomContent.shownName m = lit "You")
    /\ (isUser m = false -> RoomContent.shownName m = participant m).
Proof.
  intros R Hparse Htype. eexists. split.
  - apply (transcription_entry _ _ _ _ _ R Hparse Htype).
  - cbn [text isUser participant RoomContent.newMessage]. split; [reflexivity|].
    split; [|split; [|split]].
    + unfold RoomContent.isUser_of, RoomContent.identity_of.
      destruct sender as [p|]; cbn [option_map].
      * rewrite orb_false_r, eqb_eq. split.
        -- intros ->. now right.
        -- intros [H|H]; [discriminate|now injection H].
      * split; auto.
    + unfold RoomContent.speaker_of, RoomContent.identity_of, JS.or.
      destruct sender as [[[|c i]]|]; reflexivity.
    + unfold RoomContent.shownName. cbn [isUser]. now intros ->.
    + unfold RoomContent.shownName. cbn [isUser participant]. now intros ->.
Qed.

(** C10.  A transcription event is appended whatever its [text]: the
    entry carries [data.text] as it is, and [undefined] when the object
    has no [text] property. *)
Theorem transcription_text_unchecked (payload : list byte)
  (sender : option Participant) (a : App) (s : RoomContent.State)
  (props : list (jsstring * JSON.value)) :
  room a = Some s ->
  JSON.parse (TextDecoder.decode payload) = Some (JSON.Object props) ->
  JSON.lookup (lit "type") props = Some (JSON.String (lit "transcription")) ->
  exists m,
    snapshot (step cfg oracle (DataArrived payload sender) a)
    = Some (RoomContent.transcripts s ++ [m])
    /\ text m = JSON.lookup (lit "text") props
    /\ (JSON.lookup (lit "text") props = None -> text m = undefined).
Proof.
  intros R Hparse Htype. eexists. split.
  - apply (transcription_entry _ _ _ _ _ R Hparse Htype).
  - cbn [text RoomContent.newMessage]. split; [reflexivity|]. now intros ->.
Qed.

Lemma announces_appended ps : forall k,
  announces ps
    (RoomContent.appended oracle k
       (List.map (fun p => (str (RoomContent.announcement p),
                            RoomContent.System, false)) ps)).
Proof.
  induction ps as [|p ps IH]; intros k; cbn [List.map RoomContent.appended].
  - constructor.
  - constructor; [repeat split|apply IH].
Qed.

Lemma exec_participants ps w s :
  ps <> [] ->
  RoomContent.exec (RoomContent.participantsEffect oracle ps) (w, s) =
  (mkWorld (calls w + List.length ps)
     (console w ++ [ConnectedWith (List.length ps)]),
   RoomContent.mkState
     (RoomContent.transcripts s ++
        RoomContent.appended oracle (calls w)
          (List.map (fun p => (str (RoomContent.announcement p),
                               RoomContent.System, false)) ps))
     (RoomContent.isInitialized s)).
Proof.
  intros Hps. unfold RoomContent.participantsEffect.
  destruct ps as [|p ps]; [congruence|].
  cbn [List.length Nat.ltb Nat.leb]. rewrite exec_bind.
  cbn [RoomContent.log fst snd].
  now rewrite (exec_forEach_add oracle
            (fun p => (str (RoomContent.announcement p), RoomContent.System, false))).
Qed.

(** C9.  Each run of the participants effect with a non-empty list
    appends one System entry per participant, after the entries that
    were there, in the order of the list, with the text "Assistant
    <identity> is in the room".  Running it again with the same list
    appends the same number of entries again. *)
Theorem roster_announced (ps : list Participant) (a : App)
  (s : RoomContent.State) :
  room a = Some s -> ps <> [] ->
  let a1 := step cfg oracle (ParticipantsChanged ps) a in
  let a2 := step cfg oracle (ParticipantsChanged ps) a1 in
  exists new new',
    snapshot a1 = Some (RoomContent.transcripts s ++ new)
    /\ snapshot a2 = Some (RoomContent.transcripts s ++ new ++ new')
    /\ announces ps new /\ List.length new = List.length ps
    /\ announces ps new' /\ List.length new' = List.length ps.
Proof.
  intros R Hps. cbv zeta. cbn [step].
  rewrite (inRoom_mounted _ _ _ R), (exec_participants _ _ _ Hps).
  cbn [fst snd].
  erewrite inRoom_mounted by reflexivity.
  cbn [world]. rewrite (exec_participants _ _ _ Hps).
  cbn [fst snd calls RoomContent.transcripts]. unfold snapshot. cbn [room option_map].
  cbn [RoomContent.transcripts]. rewrite <- app_assoc.
  do 2 eexists. split; [reflexivity|]. split; [reflexivity|].
  repeat split; auto using announces_appended;
    now rewrite length_appended, length_map.
Qed.

End RoomEvents.



Lemma transcription_speaker_witness :
  let a := Sample.connected in
  (room a = Some (roomState a)
   /\ JSON.parse (TextDecoder.decode Sample.hello)
      = Some (JSON.Object [(lit "type", JSON.String (lit "transcription"));
                           (lit "text", JSON.String (lit "hello"))]))
  /\ exists m,
       snapshot (step Sample.configured Sample.forward
                   (DataArrived Sample.hello (Some Sample.user)) a)
       = Some (RoomContent.transcripts (roomState a) ++ [m])
       /\ isUser m = true
       /\ RoomContent.shownName m = lit "You".
Proof.
  cbv zeta. split; [split; reflexivity|].
  destruct (transcription_speaker Sample.configured Sample.forward Sample.hello
              (Some Sample.user) Sample.connected (roomState Sample.connected)
              _ eq_refl eq_refl eq_refl)
    as (m & Hsnap & _ & Huser & _ & Hshown & _).
  exists m. split; [exact Hsnap|].
  assert (Hm : isUser m = true) by (apply Huser; right; reflexivity).
  split; [exact Hm|exact (Hshown Hm)].
Defined.

(** C5 fails as stated: a sender whose identity is the empty string is
    present, and the entry is attributed to "User", not to that
    identity. *)
Lemma empty_identity_becomes_User :
  let a := Sample.connected in
  let a' := step Sample.configured Sample.forward
              (DataArrived Sample.hello (Some Sample.nameless)) a in
  option_map (List.map participant) (snapshot a')
  = Some [lit "System"; lit "User"]
  /\ option_map (List.map participant) (snapshot a')
     <> Some [lit "System"; identity Sample.nameless]
  /\ option_map (List.map isUser) (snapshot a') = Some [false; false].
Proof.
  cbv zeta. repeat split. discriminate.
Qed.

Lemma transcription_text_unchecked_witness :
  let a := Sample.connected in
  (room a = Some (roomState a)
   /\ JSON.parse (TextDecoder.decode Sample.no_text)
      = Some (JSON.Object [(lit "type", JSON.String (lit "transcription"))]))
  /\ exists m,
       snapshot (step Sample.configured Sample.forward
                   (DataArrived Sample.no_text None) a)
       = Some (RoomContent.transcripts (roomState a) ++ [m])
       /\ text m = undefined.
Proof.
  cbv zeta. split; [split; reflexivity|].
  destruct (transcription_text_unchecked Sample.configured Sample.forward
              Sample.no_text None Sample.connected (roomState Sample.connected)
              _ eq_refl eq_refl eq_refl)
    as (m & Hsnap & _ & Hundef).
  exists m. split; [exact Hsnap|exact (Hundef eq_refl)].
Defined.

Lemma roster_announced_witness :
  let a := Sample.connected in
  let ps := [Sample.assistant; Sample.user] in
  let a1 := step Sample.configured Sample.forward (ParticipantsChanged ps) a in
  let a2 := step Sample.configured Sample.forward (ParticipantsChanged ps) a1 in
  (room a = Some (roomState a) /\ ps <> [])
  /\ exists new new',
       snapshot a1 = Some (RoomContent.transcripts (roomState a) ++ new)
       /\ snapshot a2 = Some (RoomContent.transcripts (roomState a) ++ new ++ new')
       /\ announces ps new /\ List.length new = List.length ps
       /\ announces ps new' /\ List.length new' = List.length ps.
Proof.
  cbv zeta. split; [split; [reflexivity|discriminate]|].
  apply (roster_announced Sample.configured Sample.forward
           [Sample.assistant; Sample.user] Sample.connected
           (roomState Sample.connected) eq_refl).
  discriminate.
Defined.

(** ** Scenarios *)

(** Encoding a transcription object and decoding it gives the object
    back. *)
Example decode_transcription :
  JSON.parse
    (TextDecoder.decode
       (payload_of "{'type':'transcription','text':'hello','senderIdentity':'assistant-1'}"))
  = Some (JSON.Object
            [(lit "type", JSON.String (lit "transcription"));
             (lit "text", JSON.String (lit "hello"));
             (lit "senderIdentity", JSON.String (lit "assistant-1"))]).
Proof. reflexivity. Qed.

(** Connect, then one participant: a welcome entry, then the notice of
    the participant. *)
Example connect_then_roster :
  let a := run Sample.configured Sample.forward
             [ConnectPressed; WelcomeEffect;
              ParticipantsChanged [Sample.assistant]] initial in
  sessionState a = Connected
  /\ option_map (List.map (fun m => (text m, participant m, isUser m))) (snapshot a)
     = Some [(str (lit "Connected to FlowShield Assistant! Start speaking..."),
              lit "System", false);
             (str (lit "Assistant assistant-1 is in the room"),
              lit "System", false)].
Proof. split; reflexivity. Qed.

(** What is not JSON, [null], an array and an object without [type]
    leave the transcript as it is. *)
Example dropped_payloads :
  let a := run Sample.configured Sample.forward
             [DataArrived [xff; xfe] None;
              DataArrived (payload_of "not json") None;
              DataArrived (payload_of "null") None;
              DataArrived (payload_of "[]") None;
              DataArrived (payload_of "{}") None;
              DataArrived (payload_of "{'type':'ping'}") None]
             Sample.connected in
  snapshot a = snapshot Sample.connected
  /\ console (world a)
     = [ErrorParsing; ErrorParsing; DataReceived JSON.Null; ErrorParsing;
        DataReceived (JSON.Array []); DataReceived (JSON.Object []);
        DataReceived (JSON.Object [(lit "type", JSON.String (lit "ping"))])].
Proof. split; reflexivity. Qed.

(** ** Reachable states *)

Section Reachable.

Variable cfg : HomeScreen.Config.
Variable oracle : nat -> Reading.

Lemma follows_refl a : follows oracle a a.
Proof.
  unfold follows. destruct (room a) as [s|] eqn:R; [|exact I].
  right. exists s, []. cbn. rewrite app_nil_r. repeat split; auto; lia.
Qed.

Lemma commit_follows a h w :
  calls w = calls (world a) ->
  follows oracle a (commit (mkApp h (room a) w)).
Proof.
  intros Hw. unfold follows, commit. cbn [home room world].
  destruct (HomeScreen.rendersRoom h); cbn [room world]; [|exact I].
  destruct (room a) as [s|] eqn:R; cbn [room world].
  - right. exists s, []. cbn. rewrite app_nil_r. repeat split; auto; lia.
  - left. split; [reflexivity|exact Hw].
Qed.

Lemma inRoom_follows m a :
  (forall w s, exists args,
      RoomContent.transcripts (snd (RoomContent.exec m (w, s))) =
        RoomContent.transcripts s ++ RoomContent.appended oracle (calls w) args
      /\ calls (fst (RoomContent.exec m (w, s))) = (calls w + List.length args)%nat
      /\ Forall source_args args) ->
  follows oracle a (inRoom m a).
Proof.
  intros Hm. destruct (room a) as [s|] eqn:R.
  - rewrite (inRoom_mounted _ _ _ R). unfold follows. cbn [room world].
    destruct (Hm (world a) s) as (args & Ht & Hc & Hs).
    right. exists s, args. auto.
  - unfold inRoom, follows. now rewrite R, R.
Qed.

(** What one event does to the transcript and to the count of
    readings. *)
Lemma step_follows ev a : follows oracle a (step cfg oracle ev a).
Proof.
  destruct ev as [| | | |participants|payload participant|reason|]; cbn [step].
  - destruct (HomeScreen.rendersRoom (home a)); [apply follows_refl|].
    now apply commit_follows.
  - destruct (room a) as [s|] eqn:R; [|apply follows_refl].
    rewrite <- R. now apply commit_follows.
  - unfold inRoom, follows. destruct (room a) as [s|] eqn:R; [|now rewrite R].
    cbn. left. split; reflexivity.
  - apply inRoom_follows. intros w s. rewrite exec_welcome.
    destruct (RoomContent.isInitialized s); cbn [fst snd].
    + exists []. cbn. rewrite app_nil_r. repeat split; auto; lia.
    + exists [(str RoomContent.WELCOME, RoomContent.System, false)].
      cbn. repeat split; auto; try lia.
      constructor; [now left|constructor].
  - apply inRoom_follows. intros w s. destruct participants as [|p ps].
    + exists []. cbn. rewrite app_nil_r. repeat split; auto; lia.
    + rewrite exec_participants by discriminate.
      cbn [fst snd calls RoomContent.transcripts].
      eexists. split; [reflexivity|]. split; [now rewrite length_map|].
      apply Forall_forall. intros c Hc. apply in_map_iff in Hc as (q & <- & _).
      right. left. now exists q.
  - apply inRoom_follows. intros w s. unfold RoomContent.handleDataReceived.
    assert (Hnone : forall l,
              exists args,
                RoomContent.transcripts s =
                  RoomContent.transcripts s ++ RoomContent.appended oracle (calls w) args
                /\ calls (mkWorld (calls w) l) = (calls w + List.length args)%nat
                /\ Forall source_args args).
    { intros l. exists []. cbn. rewrite app_nil_r. repeat split; auto; lia. }
    destruct (JSON.parse _) as [data|]; [|apply Hnone].
    rewrite exec_bind. cbn [RoomContent.log fst snd].
    destruct (get data (lit "type")) as [type|]; [|apply Hnone].
    destruct (strict_eq type (lit "transcription")); [|apply Hnone].
    destruct (get data (lit "text")) as [t|]; [|apply Hnone].
    rewrite exec_add. cbn [fst snd calls RoomContent.transcripts].
    exists [(t, RoomContent.speaker_of participant, RoomContent.isUser_of participant)].
    cbn. repeat split; auto; try lia.
    constructor; [|constructor]. right. right. now exists t, participant.
  - apply follows_refl.
  - now apply commit_follows.
Qed.

Lemma home_commit a : home (commit a) = home a.
Proof.
  unfold commit. destruct (HomeScreen.rendersRoom (home a)); [|reflexivity].
  now destruct (room a).
Qed.

Lemma home_inRoom m a : home (inRoom m a) = home a.
Proof.
  unfold inRoom. destruct (room a); [|reflexivity].
  now destruct (RoomContent.exec m (world a, s)).
Qed.

Lemma connectToRoom_ok h : home_ok cfg h -> home_ok cfg (HomeScreen.connectToRoom cfg h).
Proof.
  intros [He Hc]. unfold HomeScreen.connectToRoom, home_ok.
  destruct (truthy (HomeScreen.LIVEKIT_URL cfg)) eqn:U; cbn [negb].
  - destruct (truthy (HomeScreen.LIVEKIT_JWT cfg)) eqn:J; cbn [negb]; cbn; auto 6.
  - cbn; auto 6.
Qed.

Lemma step_home ev a : home_ok cfg (home a) -> home_ok cfg (home (step cfg oracle ev a)).
Proof.
  intros Ha. destruct ev as [| | | |participants|payload sender|reason|];
    cbn [step]; rewrite ?home_inRoom; auto.
  - destruct (HomeScreen.rendersRoom (home a)); auto.
    rewrite home_commit. now apply connectToRoom_ok.
  - destruct (room a); auto. rewrite home_commit. cbn [home].
    destruct Ha as [He _]. split; [exact He|discriminate].
  - rewrite home_commit. cbn [home]. destruct Ha as [_ Hc].
    split; [cbn; auto 6|exact Hc].
Qed.

(** Every state the application reaches has its [HomeScreen] state in
    order. *)
Lemma run_home evs : forall a,
  home_ok cfg (home a) -> home_ok cfg (home (run cfg oracle evs a)).
Proof.
  induction evs as [|ev evs IH]; intros a Ha; [exact Ha|].
  cbn [run fold_left]. apply IH, step_home, Ha.
Qed.

Lemma home_ok_initial : home_ok cfg (home initial).
Proof. split; [now left|discriminate]. Qed.

Lemma rendersRoom_no_error h :
  (HomeScreen.error h = None
   \/ HomeScreen.error h = Some HomeScreen.URL_NOT_CONFIGURED
   \/ HomeScreen.error h = Some HomeScreen.JWT_NOT_CONFIGURED
   \/ HomeScreen.error h = Some HomeScreen.AUDIO_FAILED) ->
  HomeScreen.rendersRoom h = true ->
  HomeScreen.error h = None /\ HomeScreen.shouldConnect h = true.
Proof.
  unfold HomeScreen.rendersRoom.
  intros [E|[E|[E|E]]]; rewrite E; cbn; rewrite ?andb_false_r, ?andb_true_r;
    intros H; try discriminate; auto.
Qed.

(** X1.  In every state the application reaches, an error, when there
    is one, is one of the three messages of the program (so it is never
    the empty string), the room screen is not mounted, and the idle
    screen shows the banner "Error: <message>". *)
Theorem error_is_a_message (evs : list Event) :
  let a := run cfg oracle evs initial in
  match HomeScreen.error (home a) with
  | None => True
  | Some e =>
      (e = lit "LIVEKIT_URL is not configured"
       \/ e = lit "LIVEKIT_JWT is not configured. Please add your JWT token to the .env file or app.json extra config."
       \/ e = lit "Failed to initialize audio session")
      /\ room a = None
      /\ View.homeScreen cfg (home a)
         = View.IdleScreen (View.ErrorBanner (lit "Error: " ++ e))
  end.
Proof.
  cbv zeta.
  destruct (run_home evs initial home_ok_initial) as [He _].
  pose proof (run_rendered cfg oracle evs initial rendered_initial) as Hr.
  set (a := run cfg oracle evs initial) in *.
  destruct (HomeScreen.error (home a)) as [e|] eqn:E; [|exact I].
  assert (Hidle : HomeScreen.rendersRoom (home a) = false).
  { unfold HomeScreen.rendersRoom. rewrite E.
    destruct He as [H|[H|[H|H]]]; try discriminate;
      injection H as ->; cbn; apply andb_false_r. }
  split; [|split].
  - destruct He as [H|[H|[H|H]]]; try discriminate; injection H as ->; auto.
  - now apply Hr.
  - unfold View.homeScreen. rewrite Hidle, E.
    destruct He as [H|[H|[H|H]]]; try discriminate; injection H as ->; reflexivity.
Qed.

(** X2.  Whenever the application, in a state it reaches, renders the
    room screen, the [serverUrl] and the [token] given to [LiveKitRoom]
    are non-empty strings and no error is set: the non-null assertions
    of [VoiceAssistant] never meet a missing value. *)
Theorem room_gets_credentials (evs : list Event) (props : View.LiveKitRoomProps) :
  View.homeScreen cfg (home (run cfg oracle evs initial)) = View.RoomScreen props ->
  truthy (View.serverUrl props) = true
  /\ truthy (View.token props) = true
  /\ HomeScreen.error (home (run cfg oracle evs initial)) = None.
Proof.
  destruct (run_home evs initial home_ok_initial) as [He Hc].
  unfold View.homeScreen.
  destruct (HomeScreen.rendersRoom _) eqn:R; [|discriminate].
  intros [= <-]. destruct (rendersRoom_no_error _ He R) as [E S].
  destruct (Hc S) as [U J]. cbn. auto.
Qed.

Section TranscriptInvariant.

(** A property of the transcript and of the count of readings that the
    empty transcript has and that every append of the program keeps. *)
Variable Q : nat -> list TranscriptMessage -> Prop.

Hypothesis Q_nil : forall k, Q k [].

Hypothesis Q_snoc : forall k l t p u,
  Q k l -> source_args (t, p, u) ->
  Q (S k) (l ++ [RoomContent.newMessage (oracle k) t p u]).

Lemma Q_appended args : forall k l,
  Q k l -> Forall source_args args ->
  Q (k + List.length args) (l ++ RoomContent.appended oracle k args).
Proof.
  induction args as [|[[t p] u] rest IH]; intros k l Hl Hs.
  - cbn. now rewrite app_nil_r, Nat.add_0_r.
  - inversion Hs as [|? ? Hc Hrest]; subst.
    cbn [RoomContent.appended List.length].
    replace (l ++ RoomContent.newMessage (oracle k) t p u
               :: RoomContent.appended oracle (S k) rest)
      with ((l ++ [RoomContent.newMessage (oracle k) t p u])
              ++ RoomContent.appended oracle (S k) rest)
      by (now rewrite <- app_assoc).
    replace (k + S (List.length rest))%nat with (S k + List.length rest)%nat by lia.
    apply IH; auto.
Qed.

Lemma step_transcripts ev a :
  (forall s, room a = Some s -> Q (calls (world a)) (RoomContent.transcripts s)) ->
  forall s', room (step cfg oracle ev a) = Some s' ->
    Q (calls (world (step cfg oracle ev a))) (RoomContent.transcripts s').
Proof.
  intros Ha s' R'. pose proof (step_follows ev a) as F.
  unfold follows in F. rewrite R' in F.
  destruct F as [[-> _]|(s & args & R & -> & -> & Hs)]; [apply Q_nil|].
  apply Q_appended; auto.
Qed.

Lemma run_transcripts evs : forall a,
  (forall s, room a = Some s -> Q (calls (world a)) (RoomContent.transcripts s)) ->
  forall s', room (run cfg oracle evs a) = Some s' ->
    Q (calls (world (run cfg oracle evs a))) (RoomContent.transcripts s').
Proof.
  induction evs as [|ev evs IH]; intros a Ha; [exact Ha|].
  cbn [run fold_left]. apply IH. now apply step_transcripts.
Qed.

End TranscriptInvariant.

Lemma speaker_of_named sender : RoomContent.speaker_of sender <> [].
Proof.
  unfold RoomContent.speaker_of, RoomContent.identity_of, JS.or.
  destruct sender as [[[|c i]]|]; discriminate.
Qed.

Lemma isUser_of_speaker sender :
  RoomContent.isUser_of sender = true ->
  RoomContent.speaker_of sender = lit "user"
  \/ RoomContent.speaker_of sender = lit "User".
Proof.
  unfold RoomContent.isUser_of, RoomContent.speaker_of, RoomContent.identity_of.
  destruct sender as [[i]|]; cbn [option_map identity].
  - rewrite orb_false_r, eqb_eq. intros ->. now left.
  - intros _. now right.
Qed.

Lemma source_args_label t p u k :
  source_args (t, p, u) -> label_ok (RoomContent.newMessage (oracle k) t p u).
Proof.
  unfold label_ok. cbn [participant isUser RoomContent.newMessage].
  intros [H|[(q & H)|(t' & sender & H)]]; injection H as -> -> ->.
  - split; discriminate.
  - split; discriminate.
  - split; [apply speaker_of_named|apply isUser_of_speaker].
Qed.

(** X7.  Every entry of every transcript the application reaches has a
    non-empty participant and is shown under a non-empty name; an entry
    marked as the user's has the participant "user" or "User". *)
Theorem entries_are_labelled (evs : list Event) (s : list TranscriptMessage)
  (m : TranscriptMessage) :
  snapshot (run cfg oracle evs initial) = Some s -> In m s ->
  participant m <> []
  /\ View.name (View.row m) <> []
  /\ (isUser m = true ->
      participant m = lit "user" \/ participant m = lit "User").
Proof.
  intros Hs Hm. unfold snapshot in Hs.
  destruct (room (run cfg oracle evs initial)) as [st|] eqn:R; [|discriminate].
  injection Hs as <-.
  assert (Hall : Forall label_ok (RoomContent.transcripts st)).
  { apply (run_transcripts (fun _ l => Forall label_ok l)) with (evs := evs)
      (a := initial); auto.
    - intros k l t p u Hl Hc. apply Forall_app. split; [exact Hl|].
      constructor; [now apply source_args_label|constructor].
    - discriminate. }
  rewrite Forall_forall in Hall. destruct (Hall m Hm) as [Hp Hu].
  split; [exact Hp|]. split; [|exact Hu].
  cbn [View.row View.name]. unfold RoomContent.shownName.
  destruct (isUser m); [discriminate|exact Hp].
Qed.

End Reachable.

(** ** Keys *)

Section Keys.

Lemma lit_inj s1 s2 : lit s1 = lit s2 -> s1 = s2.
Proof.
  unfold lit. intros H.
  rewrite <- (string_of_list_ascii_of_string s1),
          <- (string_of_list_ascii_of_string s2).
  f_equal. revert H.
  generalize (list_ascii_of_string s1) (list_ascii_of_string s2).
  induction l as [|a l IH]; intros [|b l'] H; try discriminate; auto.
  cbn [List.map] in H. injection H as Hab Hl.
  f_equal; [|now apply IH].
  now rewrite <- (ascii_N_embedding a), <- (ascii_N_embedding b), Hab.
Qed.

Lemma toString_inj z1 z2 : JS.toString z1 = JS.toString z2 -> z1 = z2.
Proof.
  unfold JS.toString. intros H. apply lit_inj in H.
  assert (Hz : forall z, NilZero.int_of_string (NilZero.string_of_int (Z.to_int z))
                         = Some (Z.to_int z)).
  { intros z. apply NilZero.isi; destruct z; cbn; try discriminate;
      intros [= E]; now apply (DecimalPos.Unsigned.to_uint_nonnil p). }
  apply DecimalZ.to_int_inj.
  pose proof (Hz z1) as H1. rewrite H, Hz in H1. now injection H1.
Qed.

Lemma digits_of_uint d :
  forallb digit (lit (NilEmpty.string_of_uint d)) = true.
Proof. induction d; cbn; auto. Qed.

(** A decimal numeral: digits, or a minus sign and digits. *)
Lemma toString_numeral z :
  (JS.toString z <> [] /\ forallb digit (JS.toString z) = true)
  \/ exists ds, JS.toString z = 45%N :: ds /\ ds <> []
                /\ forallb digit ds = true.
Proof.
  assert (Hu : forall d, lit (NilZero.string_of_uint d) <> []
                         /\ forallb digit (lit (NilZero.string_of_uint d)) = true).
  { intros d. split.
    - destruct d; discriminate.
    - destruct d; try apply (digits_of_uint (_ d)); reflexivity. }
  unfold JS.toString. destruct (Z.to_int z) as [d|d]; cbn [NilZero.string_of_int].
  - left. apply Hu.
  - right. exists (lit (NilZero.string_of_uint d)). split; [reflexivity|apply Hu].
Qed.

Lemma fraction_head r :
  fraction r = true -> exists d rest, r = d :: rest /\ digit d = true.
Proof.
  destruct r as [|d rest]; [discriminate|]. cbn. intros H.
  apply andb_true_iff in H as [Hd _]. eauto.
Qed.

Lemma split_digits D1 : forall D2 r1 r2,
  forallb digit D1 = true -> forallb digit D2 = true ->
  fraction r1 = true -> fraction r2 = true ->
  D1 ++ r1 = D2 ++ r2 -> D1 = D2 /\ r1 = r2.
Proof.
  assert (Hno : forall x D r r', forallb digit (x :: D) = true ->
                  fraction r = true -> fraction r' = true ->
                  r = (x :: D) ++ r' -> False).
  { intros x D r r' HD Hr Hr' E. subst r. cbn [app fraction] in Hr.
    apply andb_true_iff in Hr as [_ Hr].
    destruct (fraction_head _ Hr') as (d & rest & -> & Hd).
    cbn [forallb] in HD. apply andb_true_iff in HD as [_ HD].
    destruct D as [|y D]; cbn [app] in Hr.
    - now rewrite Hd in Hr.
    - cbn [forallb] in HD. apply andb_true_iff in HD as [Hy _].
      now rewrite Hy in Hr. }
  induction D1 as [|x D1 IH]; intros [|y D2] r1 r2 H1 H2 F1 F2 E.
  - now split.
  - exfalso. exact (Hno _ _ _ _ H2 F1 F2 E).
  - exfalso. exact (Hno _ _ _ _ H1 F2 F1 (eq_sym E)).
  - cbn [app] in E. injection E as <- E.
    cbn [forallb] in H1, H2.
    apply andb_true_iff in H1 as [_ H1]. apply andb_true_iff in H2 as [_ H2].
    destruct (IH _ _ _ H1 H2 F1 F2 E) as [-> ->]. now split.
Qed.

(** The [id] of an entry gives back the millisecond and the random
    number it was made of. *)
Lemma key_of_inj r1 r2 :
  fraction (random r1) = true -> fraction (random r2) = true ->
  key_of r1 = key_of r2 ->
  date_now r1 = date_now r2 /\ random r1 = random r2.
Proof.
  unfold key_of. intros F1 F2 E.
  assert (Hsplit : JS.toString (date_now r1) = JS.toString (date_now r2)
                   /\ random r1 = random r2).
  { destruct (toString_numeral (date_now r1)) as [[N1 D1]|(ds1 & E1 & N1 & D1)],
             (toString_numeral (date_now r2)) as [[N2 D2]|(ds2 & E2 & N2 & D2)].
    - now apply split_digits.
    - exfalso. rewrite E2 in E. destruct (JS.toString (date_now r1)) as [|x D];
        [congruence|]. cbn [app] in E. injection E as -> _.
      cbn [forallb] in D1. discriminate.
    - exfalso. rewrite E1 in E. destruct (JS.toString (date_now r2)) as [|x D];
        [congruence|]. cbn [app] in E. injection E as <- _.
      cbn [forallb] in D2. discriminate.
    - rewrite E1, E2 in *. cbn [app] in E. injection E as E.
      destruct (split_digits _ _ _ _ D1 D2 F1 F2 E) as [-> ->]. now split. }
  destruct Hsplit as [Hd Hr]. split; [now apply toString_inj|exact Hr].
Qed.

Variable cfg : HomeScreen.Config.
Variable oracle : nat -> Reading.

Hypothesis printed : forall n, fraction (random (oracle n)) = true.
Hypothesis distinct : never_repeats oracle.

Lemma key_of_oracle_inj i j : key_of (oracle i) = key_of (oracle j) -> i = j.
Proof.
  intros E. destruct (Nat.eq_dec i j) as [|Hij]; [assumption|exfalso].
  destruct (key_of_inj _ _ (printed i) (printed j) E) as [Hd Hr].
  destruct (distinct i j Hij); contradiction.
Qed.

(** X8.  When the platform never answers the same millisecond and the
    same random number twice, and prints its random numbers as numbers
    below one are printed, the React keys of the rows of the
    conversation are pairwise distinct in every state the application
    reaches. *)
Theorem keys_are_unique (evs : list Event) (st : RoomContent.State)
  (participants : list Participant) (rows : list View.Row) :
  room (run cfg oracle evs initial) = Some st ->
  View.conversation (View.roomContent participants st) = View.Rows rows ->
  NoDup (List.map View.key rows).
Proof.
  intros R Hrows.
  assert (Hk : NoDup (List.map id (RoomContent.transcripts st))
               /\ Forall (fun m => exists j,
                            (j < calls (world (run cfg oracle evs initial)))%nat
                            /\ id m = key_of (oracle j))
                    (RoomContent.transcripts st)).
  { apply (run_transcripts cfg oracle
             (fun k l => NoDup (List.map id l)
                         /\ Forall (fun m => exists j, (j < k)%nat
                                                       /\ id m = key_of (oracle j)) l))
      with (a := initial); auto.
    - intros k. split; constructor.
    - intros k l t p u [Hn Hf] _. split.
      + rewrite map_app. cbn [List.map].
        apply NoDup_app; [exact Hn|repeat constructor; intros []|].
        intros x Hx [<-|[]]. apply in_map_iff in Hx as (m & Em & Hm).
        rewrite Forall_forall in Hf. destruct (Hf m Hm) as (j & Hj & Ej).
        cbn [id RoomContent.newMessage] in Em.
        change (id m = key_of (oracle k)) in Em. rewrite Ej in Em.
        apply key_of_oracle_inj in Em. lia.
      + apply Forall_app. split.
        * eapply Forall_impl; [|exact Hf].
          intros m (j & Hj & Ej). exists j. split; [lia|exact Ej].
        * repeat constructor. exists k. split; [lia|reflexivity].
    - discriminate. }
  destruct Hk as [Hn _]. unfold View.roomContent in Hrows.
  cbn [View.conversation] in Hrows.
  destruct (Nat.eqb _ 0); [discriminate|]. injection Hrows as <-.
  rewrite map_map. exact Hn.
Qed.

End Keys.

(** ** Connecting, failing, recovering *)

Section Lifecycle.

Variable cfg : HomeScreen.Config.
Variable oracle : nat -> Reading.

Lemma truthy_or a b : truthy (JS.or a b) = truthy a || truthy b.
Proof. unfold JS.or. destruct (truthy a) eqn:E; [exact E|reflexivity]. Qed.

Lemma connect_from_idle a :
  rendered a -> sessionState a = Idle ->
  step cfg oracle ConnectPressed a =
  commit (mkApp (HomeScreen.connectToRoom cfg (home a)) None (world a)).
Proof.
  intros Hr Hi. apply Idle_inv in Hi. cbn [step]. rewrite Hi.
  now rewrite (proj2 Hr Hi).
Qed.

(** X3.  From the idle screen, the connect button leads to Connecting
    exactly when a server URL is given by the app configuration or by
    the environment, and a token likewise; otherwise the session stays
    Idle and the idle screen shows an error banner. *)
Theorem connect_iff_configured (a : App) :
  rendered a -> sessionState a = Idle ->
  let a' := step cfg oracle ConnectPressed a in
  (sessionState a' = Connecting <->
   (truthy (HomeScreen.extra_LIVEKIT_URL cfg)
    || truthy (HomeScreen.env_LIVEKIT_URL cfg))
   && (truthy (HomeScreen.extra_LIVEKIT_JWT cfg)
       || truthy (HomeScreen.env_LIVEKIT_JWT cfg)) = true)
  /\ (sessionState a' = Connecting
      \/ sessionState a' = Idle
         /\ exists message,
              View.homeScreen cfg (home a')
              = View.IdleScreen (View.ErrorBanner message)).
Proof.
  intros Hr Hi. cbv zeta. rewrite (connect_from_idle a Hr Hi).
  rewrite <- !truthy_or.
  change (JS.or (HomeScreen.extra_LIVEKIT_URL cfg) (HomeScreen.env_LIVEKIT_URL cfg))
    with (HomeScreen.LIVEKIT_URL cfg).
  change (JS.or (HomeScreen.extra_LIVEKIT_JWT cfg) (HomeScreen.env_LIVEKIT_JWT cfg))
    with (HomeScreen.LIVEKIT_JWT cfg).
  unfold HomeScreen.connectToRoom, sessionState, commit, View.homeScreen.
  cbn [home room world].
  destruct (truthy (HomeScreen.LIVEKIT_URL cfg)); cbn [negb andb].
  - destruct (truthy (HomeScreen.LIVEKIT_JWT cfg)); cbn [negb].
    + cbn. split; [tauto|now left].
    + rewrite rendersRoom_setError by reflexivity. cbn [home].
      rewrite rendersRoom_setError by reflexivity.
      split; [split; discriminate|]. right. split; [reflexivity|]. cbn. eauto.
  - rewrite rendersRoom_setError by reflexivity. cbn [home].
    rewrite rendersRoom_setError by reflexivity.
    split; [split; discriminate|]. right. split; [reflexivity|]. cbn. eauto.
Qed.

Lemma idle_after_error e h r w :
  truthy (Some e) = true ->
  commit (mkApp (HomeScreen.setError (Some e) h) r w)
  = mkApp (HomeScreen.setError (Some e) h) None w.
Proof.
  intros He. unfold commit. cbn [home room world].
  now rewrite rendersRoom_setError.
Qed.

(** X5.  A failure to start the audio session, in any state, ends the
    session: the idle screen shows "Error: Failed to initialize audio
    session" and the transcript is gone; [shouldConnect] keeps its value
    and the disconnect button has nothing to act on.  With both
    constants in place, the connect button then clears the error and
    starts a session with an empty transcript. *)
Theorem audio_failure_ends_session (a : App) :
  let a1 := step cfg oracle AudioStartFailed a in
  let a2 := step cfg oracle ConnectPressed a1 in
  sessionState a1 = Idle
  /\ snapshot a1 = None
  /\ View.homeScreen cfg (home a1)
     = View.IdleScreen
         (View.ErrorBanner (lit "Error: Failed to initialize audio session"))
  /\ HomeScreen.shouldConnect (home a1) = HomeScreen.shouldConnect (home a)
  /\ step cfg oracle DisconnectPressed a1 = a1
  /\ (truthy (HomeScreen.LIVEKIT_URL cfg) = true ->
      truthy (HomeScreen.LIVEKIT_JWT cfg) = true ->
      sessionState a2 = Connecting
      /\ snapshot a2 = Some []
      /\ HomeScreen.error (home a2) = None).
Proof.
  cbv zeta. cbn [step]. rewrite idle_after_error by reflexivity.
  unfold sessionState, snapshot, View.homeScreen. cbn [home room world].
  rewrite rendersRoom_setError by reflexivity.
  do 5 (split; [reflexivity|]).
  intros Hu Hj. unfold commit, HomeScreen.connectToRoom. rewrite Hu, Hj.
  cbn. repeat split.
Qed.

End Lifecycle.

(** ** The data channel *)

Section DataChannel.

Variable cfg : HomeScreen.Config.
Variable oracle : nat -> Reading.

Lemma strict_eq_true v s : strict_eq v s = true <-> v = Some (JSON.String s).
Proof.
  unfold strict_eq. destruct v as [[| | |t| |]|]; try (split; discriminate).
  rewrite eqb_eq. split; [now intros ->|now intros [= ->]].
Qed.

Lemma snoc_neq {A} (l : list A) (x : A) : l ++ [x] <> l.
Proof.
  intros E. apply (f_equal (@List.length A)) in E.
  rewrite length_app in E. cbn in E. lia.
Qed.

(** What the listener does to the store, case by case. *)
Lemma exec_handle payload sender w s :
  RoomContent.exec (RoomContent.handleDataReceived oracle payload sender) (w, s) =
  match JSON.parse (TextDecoder.decode payload) with
  | None => (mkWorld (calls w) (console w ++ [ErrorParsing]), s)
  | Some JSON.Null =>
      (mkWorld (calls w) (console w ++ [DataReceived JSON.Null; ErrorParsing]), s)
  | Some (JSON.Object props) =>
      if strict_eq (JSON.lookup (lit "type") props) (lit "transcription") then
        (mkWorld (S (calls w)) (console w ++ [DataReceived (JSON.Object props)]),
         RoomContent.mkState
           (RoomContent.transcripts s ++
              [RoomContent.newMessage (oracle (calls w))
                 (JSON.lookup (lit "text") props)
                 (RoomContent.speaker_of sender) (RoomContent.isUser_of sender)])
           (RoomContent.isInitialized s))
      else (mkWorld (calls w) (console w ++ [DataReceived (JSON.Object props)]), s)
  | Some data => (mkWorld (calls w) (console w ++ [DataReceived data]), s)
  end.
Proof.
  unfold RoomContent.handleDataReceived.
  destruct (JSON.parse _) as [data|]; [|reflexivity].
  rewrite exec_bind. cbn [RoomContent.log fst snd].
  destruct data; cbn [get]; try reflexivity.
  - cbn. now rewrite <- app_assoc.
  - destruct (strict_eq _ _); reflexivity.
Qed.

Lemma handle_ignores payload sender w s :
  ~ (exists props,
       JSON.parse (TextDecoder.decode payload) = Some (JSON.Object props)
       /\ JSON.lookup (lit "type") props = Some (JSON.String (lit "transcription"))) ->
  snd (RoomContent.exec (RoomContent.handleDataReceived oracle payload sender) (w, s))
  = s.
Proof.
  intros Hno. rewrite exec_handle.
  destruct (JSON.parse _) as [[| | | | |props]|]; try reflexivity.
  destruct (strict_eq _ _) eqn:E; [|reflexivity].
  apply strict_eq_true in E. contradiction Hno. eauto.
Qed.

Lemma transcription_or_not (v : option JSON.value) :
  (exists props,
     v = Some (JSON.Object props)
     /\ JSON.lookup (lit "type") props = Some (JSON.String (lit "transcription")))
  \/ ~ (exists props,
          v = Some (JSON.Object props)
          /\ JSON.lookup (lit "type") props = Some (JSON.String (lit "transcription"))).
Proof.
  destruct v as [[| | | | |props]|];
    try (right; intros (props' & H & _); discriminate).
  destruct (strict_eq (JSON.lookup (lit "type") props) (lit "transcription")) eqn:E.
  - apply strict_eq_true in E. left. eauto.
  - right. intros (props' & [= <-] & H). apply strict_eq_true in H. congruence.
Qed.

(** X6.  A message on the data channel changes the transcript exactly
    when its text parses to an object whose [type] is the string
    "transcription"; it then adds one entry at the end.  In every case
    the [HomeScreen] state and [isInitialized] are left as they are. *)
Theorem data_appends_iff (payload : list byte) (sender : option Participant)
  (a : App) (s : RoomContent.State) :
  room a = Some s ->
  let a' := step cfg oracle (DataArrived payload sender) a in
  (snapshot a' <> snapshot a <->
   exists props,
     JSON.parse (TextDecoder.decode payload) = Some (JSON.Object props)
     /\ JSON.lookup (lit "type") props = Some (JSON.String (lit "transcription")))
  /\ (snapshot a' = snapshot a
      \/ exists m, snapshot a' = Some (RoomContent.transcripts s ++ [m]))
  /\ home a' = home a
  /\ option_map RoomContent.isInitialized (room a')
     = option_map RoomContent.isInitialized (room a).
Proof.
  intros R. cbv zeta.
  destruct (transcription_or_not (JSON.parse (TextDecoder.decode payload)))
    as [(props & Hp & Ht)|Hno].
  - pose proof (transcription_entry cfg oracle payload sender a s props R Hp Ht) as E.
    repeat split.
    + eauto.
    + intros _. rewrite E. unfold snapshot. rewrite R. cbn.
      intros [= H]. now apply snoc_neq in H.
    + right. eauto.
    + cbn [step]. apply home_inRoom.
    + cbn [step].
      rewrite (inRoom_mounted _ _ _ R),
        (exec_handle_transcription oracle _ _ _ _ _ Hp Ht), R. reflexivity.
  - assert (E : room (step cfg oracle (DataArrived payload sender) a) = Some s).
    { cbn [step]. rewrite (inRoom_mounted _ _ _ R). cbn [room].
      now rewrite handle_ignores. }
    unfold snapshot. rewrite E, R. repeat split.
    + intros H. now contradiction H.
    + intros H. contradiction.
    + now left.
    + cbn [step]. apply home_inRoom.
Qed.

End DataChannel.

(** ** Decoding *)

Section Decoding.

(** X9.  A payload of ASCII bytes is decoded to the same characters,
    one code unit per byte. *)
Theorem decode_ascii (payload : list byte) :
  Forall (fun b => (Byte.to_N b <= 127)%N) payload ->
  TextDecoder.decode payload = List.map Byte.to_N payload.
Proof.
  intros H. unfold TextDecoder.decode.
  assert (Hcp : TextDecoder.code_points None payload = List.map Byte.to_N payload).
  { induction H as [|b bs Hb _ IH]; [reflexivity|].
    cbn [TextDecoder.code_points List.map]. unfold TextDecoder.lead.
    apply N.leb_le in Hb. rewrite Hb. now rewrite IH. }
  rewrite Hcp.
  assert (Hs : TextDecoder.strip_bom (List.map Byte.to_N payload)
               = List.map Byte.to_N payload).
  { destruct H as [|b bs Hb _]; [reflexivity|]. cbn [List.map TextDecoder.strip_bom].
    destruct (N.eqb_spec (Byte.to_N b) 65279); [lia|reflexivity]. }
  rewrite Hs. clear Hcp Hs.
  induction H as [|b bs Hb _ IH]; [reflexivity|].
  cbn [List.map flat_map]. rewrite IH. unfold TextDecoder.code_units.
  destruct (N.leb_spec (Byte.to_N b) 65535); [reflexivity|lia].
Qed.

Lemma code_units_length c : (List.length (TextDecoder.code_units c) <= 2)%nat.
Proof. unfold TextDecoder.code_units. destruct (N.leb _ _); cbn; lia. Qed.

Lemma code_units_small c :
  (c <= 65535)%N -> List.length (TextDecoder.code_units c) = 1%nat.
Proof.
  intros H. unfold TextDecoder.code_units. apply N.leb_le in H. now rewrite H.
Qed.

Lemma units_of_code_points bs : forall st,
  (List.length (flat_map TextDecoder.code_units (TextDecoder.code_points st bs))
   <= List.length bs + match st with Some _ => 1 | None => 0 end)%nat.
Proof.
  assert (Hr : List.length (TextDecoder.code_units TextDecoder.REPLACEMENT) = 1%nat)
    by reflexivity.
  induction bs as [|b bs IH]; intros st.
  - destruct st; cbn; lia.
  - cbn [TextDecoder.code_points List.length].
    pose proof (IH None) as IHn. cbn beta iota in IHn.
    assert (Hlead :
              (List.length
                 (flat_map TextDecoder.code_units
                    match TextDecoder.lead (Byte.to_N b) with
                    | TextDecoder.Emit c => c :: TextDecoder.code_points None bs
                    | TextDecoder.More p => TextDecoder.code_points (Some p) bs
                    | TextDecoder.Bad =>
                        TextDecoder.REPLACEMENT :: TextDecoder.code_points None bs
                    end)
               <= S (List.length bs))%nat).
    { unfold TextDecoder.lead.
      destruct (N.leb_spec (Byte.to_N b) 127).
      - cbn [flat_map]. rewrite length_app, code_units_small by lia. lia.
      - destruct (TextDecoder.within 194 223 _).
        { specialize (IH (Some (TextDecoder.mkPending
                                  (N.land (Byte.to_N b) 31) 1 128 191))).
          cbn beta iota in IH. lia. }
        destruct (TextDecoder.within 224 239 _).
        { match goal with |- context [TextDecoder.code_points (Some ?p) bs] =>
            specialize (IH (Some p)) end. cbn beta iota in IH. lia. }
        destruct (TextDecoder.within 240 244 _).
        { match goal with |- context [TextDecoder.code_points (Some ?p) bs] =>
            specialize (IH (Some p)) end. cbn beta iota in IH. lia. }
        cbn [flat_map]. rewrite length_app, Hr. lia. }
    destruct st as [p|]; [|lia].
    destruct (TextDecoder.within _ _ _).
    + destruct (TextDecoder.remaining p) as [|[|k]].
      * cbn [flat_map]. rewrite length_app.
        pose proof (code_units_length
                      (N.lor (N.shiftl (TextDecoder.code_point p) 6)
                         (N.land (Byte.to_N b) 63))). lia.
      * cbn [flat_map]. rewrite length_app.
        pose proof (code_units_length
                      (N.lor (N.shiftl (TextDecoder.code_point p) 6)
                         (N.land (Byte.to_N b) 63))). lia.
      * match goal with |- context [TextDecoder.code_points (Some ?q) bs] =>
          specialize (IH (Some q)) end. cbn beta iota in IH. lia.
    + cbn [flat_map]. rewrite length_app, Hr. lia.
Qed.

Lemma strip_bom_length cps :
  (List.length (flat_map TextDecoder.code_units (TextDecoder.strip_bom cps))
   <= List.length (flat_map TextDecoder.code_units cps))%nat.
Proof.
  destruct cps as [|c rest]; [reflexivity|]. cbn [TextDecoder.strip_bom].
  destruct (N.eqb c 65279); [|reflexivity]. cbn [flat_map].
  rewrite length_app. lia.
Qed.

(** X11.  The decoded text has at most as many code units as the
    payload has bytes. *)
Theorem decode_length (payload : list byte) :
  (List.length (TextDecoder.decode payload) <= List.length payload)%nat.
Proof.
  unfold TextDecoder.decode.
  pose proof (strip_bom_length (TextDecoder.code_points None payload)).
  pose proof (units_of_code_points payload None) as H0.
  cbn beta iota in H0. lia.
Qed.

End Decoding.

(** ** The room screen *)

Section RoomScreen.

Variable cfg : HomeScreen.Config.
Variable oracle : nat -> Reading.

(** X12.  The first commit of a session.  From the idle screen with
    both constants in place, the connect button, the welcome effect and
    the participants effect give a Connected session whose transcript is
    the welcome notice followed by one notice per participant, in order;
    the room screen shows these rows, the "Clear Chat" button and one
    more participant than the list has. *)
Theorem first_commit (ps : list Participant) (a : App) :
  rendered a -> sessionState a = Idle ->
  truthy (HomeScreen.LIVEKIT_URL cfg) = true ->
  truthy (HomeScreen.LIVEKIT_JWT cfg) = true ->
  let k := calls (world a) in
  let b := run cfg oracle
             [ConnectPressed; WelcomeEffect; ParticipantsChanged ps] a in
  sessionState b = Connected
  /\ snapshot b =
     Some (RoomContent.newMessage (oracle k) (str RoomContent.WELCOME)
             RoomContent.System false
           :: RoomContent.appended oracle (S k)
                (List.map (fun p => (str (RoomContent.announcement p),
                                     RoomContent.System, false)) ps))
  /\ exists st,
       room b = Some st
       /\ View.roomContent ps st =
          View.mkRoom true (List.length ps + 1)
            (View.Rows (List.map View.row (RoomContent.transcripts st)))
       /\ List.length (RoomContent.transcripts st) = S (List.length ps).
Proof.
  intros Hr Hi Hu Hj. cbv zeta. cbn [run fold_left].
  rewrite (connect_from_idle cfg oracle a Hr Hi).
  unfold HomeScreen.connectToRoom. rewrite Hu, Hj. cbn [negb].
  change (commit _)
    with (mkApp (HomeScreen.mkState true None) (Some RoomContent.fresh) (world a)).
  set (a1 := mkApp (HomeScreen.mkState true None) (Some RoomContent.fresh) (world a)).
  assert (E1 : step cfg oracle WelcomeEffect a1 =
               mkApp (HomeScreen.mkState true None)
                 (Some (RoomContent.mkState
                          [RoomContent.newMessage (oracle (calls (world a)))
                             (str RoomContent.WELCOME) RoomContent.System false]
                          true))
                 (mkWorld (S (calls (world a))) (console (world a)))).
  { cbn [step]. rewrite (inRoom_mounted _ a1 RoomContent.fresh eq_refl).
    now rewrite exec_welcome. }
  rewrite E1. clear E1 a1.
  set (a2 := mkApp _ _ _). cbn [step].
  rewrite (inRoom_mounted _ a2 _ eq_refl). subst a2. cbn [home world].
  destruct ps as [|p ps].
  - cbn. repeat split. eexists. repeat split.
  - rewrite exec_participants by discriminate.
    cbn [fst snd calls RoomContent.transcripts RoomContent.isInitialized].
    unfold sessionState, snapshot. cbn [home room option_map
      RoomContent.transcripts RoomContent.isInitialized app].
    split; [reflexivity|]. split; [reflexivity|].
    eexists. split; [reflexivity|]. split; [reflexivity|].
    cbn [RoomContent.transcripts List.length app].
    now rewrite length_appended, length_map.
Qed.

(** X10.  Clearing the chat of a Connected session keeps it Connected
    and touches nothing but the transcript; the welcome effect does not
    bring the welcome notice back; the room screen shows the placeholder
    and no "Clear Chat" button. *)
Theorem clear_keeps_session (ps : list Participant) (a : App) :
  sessionState a = Connected ->
  let b := step cfg oracle ClearPressed a in
  sessionState b = Connected
  /\ snapshot b = Some []
  /\ home b = home a
  /\ world b = world a
  /\ step cfg oracle WelcomeEffect b = b
  /\ exists st,
       room b = Some st
       /\ View.roomContent ps st
          = View.mkRoom false (List.length ps + 1) View.Placeholder.
Proof.
  intros Hc. destruct (Connected_inv a Hc) as (Hrender & s & R & I).
  cbv zeta. cbn [step]. rewrite (inRoom_mounted _ _ _ R). cbn [fst snd
    RoomContent.exec RoomContent.clearTranscripts RoomContent.setTranscripts].
  unfold sessionState, snapshot. cbn [home room world option_map
    RoomContent.transcripts RoomContent.isInitialized].
  rewrite Hrender, I.
  split; [reflexivity|]. split; [reflexivity|]. split; [reflexivity|].
  split; [now destruct (world a)|]. split.
  - set (b := mkApp _ _ _).
    rewrite (inRoom_mounted _ b _ eq_refl), exec_welcome.
    cbn [RoomContent.isInitialized]. subst b. cbn.
    now destruct (world a).
  - eexists. split; reflexivity.
Qed.

End RoomScreen.

(** ** Timestamps are the readings of the appends *)

Section Stamps.

Variable cfg : HomeScreen.Config.
Variable oracle : nat -> Reading.

Lemma StronglySorted_lt_snoc (js : list nat) (k : nat) :
  StronglySorted lt js -> Forall (fun j => (j < k)%nat) js ->
  StronglySorted lt (js ++ [k]).
Proof.
  induction 1 as [|j js Hjs IH Hj]; intros Hk; cbn [app].
  - repeat constructor.
  - inversion Hk; subst. constructor; auto.
    apply Forall_app; split; auto.
Qed.

Lemma timestamps_appended args : forall k,
  List.map timestamp (RoomContent.appended oracle k args)
  = List.map (fun j => new_date (oracle j)) (seq k (List.length args)).
Proof.
  induction args as [|[[t p] u] rest IH]; intros k; [reflexivity|].
  cbn [RoomContent.appended List.length seq List.map]. now rewrite IH.
Qed.

(** C2, as the code has it.  An append stamps its entry with the
    platform's [new Date()] of that append, whatever the stamps of the
    entries before it: nothing is clamped.  So the timestamps of a
    transcript are the readings of its appends, one reading each, in the
    order taken, and each event adds the readings taken during it.  When
    the clock never runs backward between two readings, the timestamps
    never decrease. *)
Theorem timestamps_follow_clock :
  (forall t p u w s,
     let st := RoomContent.exec (RoomContent.addTranscriptMessage oracle t p u) (w, s) in
     List.map timestamp (RoomContent.transcripts (snd st))
     = List.map timestamp (RoomContent.transcripts s) ++ [new_date (oracle (calls w))]
     /\ calls (fst st) = S (calls w))
  /\ (forall evs s,
        snapshot (run cfg oracle evs initial) = Some s ->
        (exists js,
           StronglySorted lt js
           /\ Forall (fun j => (j < calls (world (run cfg oracle evs initial)))%nat) js
           /\ List.map timestamp s = List.map (fun j => new_date (oracle j)) js)
        /\ ((forall n, (new_date (oracle n) <= new_date (oracle (S n)))%Z) ->
            monotone s))
  /\ (forall ev a s',
        room (step cfg oracle ev a) = Some s' ->
        (RoomContent.transcripts s' = []
         /\ calls (world (step cfg oracle ev a)) = calls (world a))
        \/ exists s n,
             room a = Some s
             /\ List.map timestamp (RoomContent.transcripts s')
                = List.map timestamp (RoomContent.transcripts s)
                    ++ List.map (fun j => new_date (oracle j))
                         (seq (calls (world a)) n)
             /\ calls (world (step cfg oracle ev a)) = (calls (world a) + n)%nat).
Proof.
  split; [|split].
  - intros t p u w s. cbv zeta. rewrite exec_add. cbn [fst snd calls
      RoomContent.transcripts]. now rewrite map_app.
  - intros evs s Hs. unfold snapshot in Hs.
    destruct (room (run cfg oracle evs initial)) as [st|] eqn:R; [|discriminate].
    injection Hs as <-. split.
    + apply (run_transcripts cfg oracle
               (fun k l => exists js,
                    StronglySorted lt js
                    /\ Forall (fun j => (j < k)%nat) js
                    /\ List.map timestamp l
                       = List.map (fun j => new_date (oracle j)) js))
        with (a := initial); auto.
      * intros k. exists []. repeat split; constructor.
      * intros k l t p u (js & Hsorted & Hbelow & Hmap) _.
        exists (js ++ [k]). split; [now apply StronglySorted_lt_snoc|]. split.
        -- apply Forall_app. split.
           ++ eapply Forall_impl; [|exact Hbelow]. intros j Hj. cbn in Hj. lia.
           ++ repeat constructor.
        -- rewrite !map_app, Hmap. reflexivity.
      * discriminate.
    + intros Hforward.
      pose proof (run_in_order cfg oracle Hforward evs initial I) as Hin.
      unfold in_order in Hin. rewrite R in Hin. destruct Hin as [Hsorted _].
      now apply StronglySorted_monotone.
  - intros ev a s' R'. pose proof (step_follows cfg oracle ev a) as F.
    unfold follows in F. rewrite R' in F.
    destruct F as [F|(s & args & R & Ht & Hc & _)]; [now left|right].
    exists s, (List.length args). split; [exact R|]. split; [|exact Hc].
    now rewrite Ht, map_app, timestamps_appended.
Qed.

End Stamps.

Lemma timestamps_follow_clock_witness :
  let evs := [ConnectPressed; WelcomeEffect;
              ParticipantsChanged [Sample.assistant; Sample.user]] in
  let a := run Sample.configured Sample.forward evs initial in
  (snapshot a = Some (RoomContent.transcripts (roomState a))
   /\ forall n, (new_date (Sample.forward n) <= new_date (Sample.forward (S n)))%Z)
  /\ monotone (RoomContent.transcripts (roomState a))
  /\ exists js,
       StronglySorted lt js
       /\ Forall (fun j => (j < calls (world a))%nat) js
       /\ List.map timestamp (RoomContent.transcripts (roomState a))
          = List.map (fun j => new_date (Sample.forward j)) js.
Proof.
  cbv zeta.
  assert (Hf : forall n, (new_date (Sample.forward n)
                          <= new_date (Sample.forward (S n)))%Z).
  { intros n. unfold Sample.forward. cbn [new_date]. lia. }
  split; [split; [reflexivity|exact Hf]|].
  destruct (proj1 (proj2 (timestamps_follow_clock Sample.configured Sample.forward))
              [ConnectPressed; WelcomeEffect;
               ParticipantsChanged [Sample.assistant; Sample.user]] _ eq_refl)
    as [Hjs Hmono].
  split; [exact (Hmono Hf)|exact Hjs].
Defined.

(** ** The transcript between mount and unmount *)

Section AppendOnly.

Variable cfg : HomeScreen.Config.
Variable oracle : nat -> Reading.


End AppendOnly.



(** ** The transition table *)

Section Transitions.

Variable cfg : HomeScreen.Config.
Variable oracle : nat -> Reading.

Lemma sessionState_mounted a s :
  HomeScreen.rendersRoom (home a) = true -> room a = Some s ->
  sessionState a
  = if RoomContent.isInitialized s then Connected else Connecting.
Proof. intros Hr R. unfold sessionState. now rewrite Hr, R. Qed.

Lemma sessionState_inRoom m a s :
  HomeScreen.rendersRoom (home a) = true -> room a = Some s ->
  sessionState (inRoom m a)
  = if RoomContent.isInitialized (snd (RoomContent.exec m (world a, s)))
    then Connected else Connecting.
Proof.
  intros Hr R. rewrite (inRoom_mounted _ _ _ R).
  unfold sessionState. cbn [home room]. now rewrite Hr.
Qed.

(** [isInitialized] after each computation of the component. *)
Lemma isInitialized_clear st :
  RoomContent.isInitialized (snd (RoomContent.exec RoomContent.clearTranscripts st))
  = RoomContent.isInitialized (snd st).
Proof. now destruct st. Qed.

Lemma isInitialized_welcome st :
  RoomContent.isInitialized
    (snd (RoomContent.exec (RoomContent.welcomeEffect oracle) st)) = true.
Proof.
  destruct st as [w s]. rewrite exec_welcome.
  destruct (RoomContent.isInitialized s) eqn:I; [exact I|reflexivity].
Qed.

Lemma isInitialized_participants ps st :
  RoomContent.isInitialized
    (snd (RoomContent.exec (RoomContent.participantsEffect oracle ps) st))
  = RoomContent.isInitialized (snd st).
Proof.
  destruct st as [w s]. destruct ps as [|p ps]; [reflexivity|].
  now rewrite exec_participants by discriminate.
Qed.

Lemma isInitialized_handle payload sender st :
  RoomContent.isInitialized
    (snd (RoomContent.exec (RoomContent.handleDataReceived oracle payload sender) st))
  = RoomContent.isInitialized (snd st).
Proof.
  destruct st as [w s]. rewrite exec_handle.
  destruct (JSON.parse _) as [[| | | | |props]|]; try reflexivity.
  now destruct (strict_eq _ _).
Qed.

Lemma sessionState_after_audio_failure a :
  sessionState (step cfg oracle AudioStartFailed a) = Idle.
Proof.
  cbn [step]. rewrite idle_after_error by reflexivity.
  unfold sessionState. cbn [home]. now rewrite rendersRoom_setError.
Qed.

(** X4.  The session moves by the table [next]: after any event, in any
    state in which [RoomContent] is mounted exactly when it is rendered,
    the session state is the one the table gives.  So the connect button
    takes Idle to Connecting exactly when both constants are in place,
    the welcome effect takes Connecting to Connected, the disconnect
    button and an audio failure take Connecting and Connected to Idle,
    and no other event changes the session state.  From Idle, every
    event but the connect button and an audio failure leaves the
    application as it is, and a session that starts has an empty
    transcript. *)
Theorem session_transitions (ev : Event) (a : App) :
  rendered a ->
  let a' := step cfg oracle ev a in
  sessionState a' = next cfg (sessionState a) ev
  /\ (sessionState a = Idle ->
      ev <> ConnectPressed -> ev <> AudioStartFailed -> a' = a)
  /\ (sessionState a = Idle -> sessionState a' = Connecting ->
      snapshot a' = Some []).
Proof.
  intros Hr. cbv zeta. split; [|split].
  - destruct (sessionState a) eqn:S.
    + (* Idle *)
      pose proof (Idle_inv a S) as Hi. pose proof (proj2 Hr Hi) as R.
      destruct ev as [| | | |ps|payload sender|reason|]; cbn [next];
        try (cbn [step]; unfold inRoom; rewrite ?R; exact S).
      * rewrite (connect_from_idle cfg oracle a Hr S).
        unfold HomeScreen.connectToRoom, sessionState, commit.
        cbn [home room world].
        destruct (truthy (HomeScreen.LIVEKIT_URL cfg)); cbn [negb andb].
        -- destruct (truthy (HomeScreen.LIVEKIT_JWT cfg)); cbn [negb].
           ++ reflexivity.
           ++ rewrite rendersRoom_setError by reflexivity. cbn [home].
              now rewrite rendersRoom_setError by reflexivity.
        -- rewrite rendersRoom_setError by reflexivity. cbn [home].
           now rewrite rendersRoom_setError by reflexivity.
      * apply sessionState_after_audio_failure.
    + (* Connecting *)
      destruct (Connecting_inv a Hr S) as (Hrender & s & R & I).
      destruct ev as [| | | |ps|payload sender|reason|]; cbn [next step].
      * now rewrite Hrender.
      * rewrite R. reflexivity.
      * rewrite (sessionState_inRoom _ _ _ Hrender R), isInitialized_clear.
        cbn [snd]. now rewrite I.
      * now rewrite (sessionState_inRoom _ _ _ Hrender R), isInitialized_welcome.
      * rewrite (sessionState_inRoom _ _ _ Hrender R), isInitialized_participants.
        cbn [snd]. now rewrite I.
      * rewrite (sessionState_inRoom _ _ _ Hrender R), isInitialized_handle.
        cbn [snd]. now rewrite I.
      * exact S.
      * apply sessionState_after_audio_failure.
    + (* Connected *)
      destruct (Connected_inv a S) as (Hrender & s & R & I).
      destruct ev as [| | | |ps|payload sender|reason|]; cbn [next step].
      * now rewrite Hrender.
      * rewrite R. reflexivity.
      * rewrite (sessionState_inRoom _ _ _ Hrender R), isInitialized_clear.
        cbn [snd]. now rewrite I.
      * now rewrite (sessionState_inRoom _ _ _ Hrender R), isInitialized_welcome.
      * rewrite (sessionState_inRoom _ _ _ Hrender R), isInitialized_participants.
        cbn [snd]. now rewrite I.
      * rewrite (sessionState_inRoom _ _ _ Hrender R), isInitialized_handle.
        cbn [snd]. now rewrite I.
      * exact S.
      * apply sessionState_after_audio_failure.
    + exfalso. exact (never_Failed a reason S).
  - intros S Hc Ha.
    pose proof (Idle_inv a S) as Hi. pose proof (proj2 Hr Hi) as R.
    destruct ev as [| | | |ps|payload sender|reason|]; try congruence;
      cbn [step]; unfold inRoom; now rewrite ?R.
  - intros S S'.
    pose proof (Idle_inv a S) as Hi. pose proof (proj2 Hr Hi) as R.
    assert (Hstay : forall b, b = a -> sessionState b = Connecting -> False).
    { intros b -> Hb. congruence. }
    destruct ev as [| | | |ps|payload sender|reason|];
      try (exfalso; apply (Hstay _ eq_refl);
           revert S'; cbn [step]; unfold inRoom; rewrite ?R; auto; fail).
    + rewrite (connect_from_idle cfg oracle a Hr S) in S' |- *.
      unfold commit in S' |- *. cbn [home room world] in S' |- *.
      destruct (HomeScreen.rendersRoom (HomeScreen.connectToRoom cfg (home a)))
        eqn:E; [reflexivity|].
      unfold sessionState in S'. cbn [home] in S'. rewrite E in S'. discriminate.
    + rewrite sessionState_after_audio_failure in S'. discriminate.
Qed.

End Transitions.

Lemma session_transitions_witness :
  let a := step Sample.configured Sample.forward ConnectPressed initial in
  rendered a
  /\ sessionState a = Connecting
  /\ sessionState (step Sample.configured Sample.forward WelcomeEffect a)
     = Connected.
Proof.
  cbv zeta. split; [exact rendered_connecting|]. split; [reflexivity|].
  exact (proj1 (session_transitions Sample.configured Sample.forward
                  WelcomeEffect _ rendered_connecting)).
Defined.

(** ** Instances *)

Lemma room_gets_credentials_witness :
  View.homeScreen Sample.configured
    (home (run Sample.configured Sample.forward [ConnectPressed] initial))
  = View.RoomScreen (View.VoiceAssistant Sample.configured)
  /\ truthy (View.serverUrl (View.VoiceAssistant Sample.configured)) = true
  /\ truthy (View.token (View.VoiceAssistant Sample.configured)) = true.
Proof.
  split; [reflexivity|].
  pose proof (room_gets_credentials Sample.configured Sample.forward
                [ConnectPressed] _ eq_refl) as H.
  split; [exact (proj1 H)|exact (proj1 (proj2 H))].
Defined.

Lemma connect_iff_configured_witness :
  (rendered initial /\ sessionState initial = Idle)
  /\ (sessionState (step Sample.no_token Sample.forward ConnectPressed initial)
      = Connecting
      \/ sessionState (step Sample.no_token Sample.forward ConnectPressed initial)
         = Idle
         /\ exists message,
              View.homeScreen Sample.no_token
                (home (step Sample.no_token Sample.forward ConnectPressed initial))
              = View.IdleScreen (View.ErrorBanner message)).
Proof.
  split; [split; [exact rendered_initial|reflexivity]|].
  exact (proj2 (connect_iff_configured Sample.no_token Sample.forward initial
                  rendered_initial eq_refl)).
Defined.

Lemma audio_failure_ends_session_witness :
  (truthy (HomeScreen.LIVEKIT_URL Sample.configured) = true
   /\ truthy (HomeScreen.LIVEKIT_JWT Sample.configured) = true)
  /\ sessionState
       (step Sample.configured Sample.forward ConnectPressed
          (step Sample.configured Sample.forward AudioStartFailed Sample.connected))
     = Connecting.
Proof.
  split; [split; reflexivity|].
  exact (proj1 (proj2 (proj2 (proj2 (proj2 (proj2
           (audio_failure_ends_session Sample.configured Sample.forward
              Sample.connected))))) eq_refl eq_refl)).
Defined.

Lemma data_appends_iff_witness :
  room Sample.connected = Some (roomState Sample.connected)
  /\ (snapshot (step Sample.configured Sample.forward
                  (DataArrived Sample.hello (Some Sample.assistant))
                  Sample.connected)
      <> snapshot Sample.connected <->
      exists props,
        JSON.parse (TextDecoder.decode Sample.hello) = Some (JSON.Object props)
        /\ JSON.lookup (lit "type") props
           = Some (JSON.String (lit "transcription"))).
Proof.
  split; [reflexivity|].
  exact (proj1 (data_appends_iff Sample.configured Sample.forward Sample.hello
                  (Some Sample.assistant) Sample.connected
                  (roomState Sample.connected) eq_refl)).
Defined.

Lemma entries_are_labelled_witness :
  let m := RoomContent.newMessage (Sample.forward 0)
             (str RoomContent.WELCOME) RoomContent.System false in
  (snapshot (run Sample.configured Sample.forward
               [ConnectPressed; WelcomeEffect] initial) = Some [m]
   /\ In m [m])
  /\ participant m <> []
  /\ View.name (View.row m) <> [].
Proof.
  cbv zeta. split; [split; [reflexivity|now left]|].
  pose proof (entries_are_labelled Sample.configured Sample.forward
                [ConnectPressed; WelcomeEffect] _ _ eq_refl (or_introl eq_refl))
    as H.
  split; [exact (proj1 H)|exact (proj1 (proj2 H))].
Defined.

Lemma forward_printed n : fraction (random (Sample.forward n)) = true.
Proof. reflexivity. Qed.

Lemma forward_never_repeats : never_repeats Sample.forward.
Proof.
  intros i j Hij. left. unfold Sample.forward. cbn [date_now]. lia.
Qed.

Lemma keys_are_unique_witness :
  let a := run Sample.configured Sample.forward
             [ConnectPressed; WelcomeEffect;
              ParticipantsChanged [Sample.assistant; Sample.user]] initial in
  ((forall n, fraction (random (Sample.forward n)) = true)
   /\ never_repeats Sample.forward
   /\ room a = Some (roomState a)
   /\ View.conversation (View.roomContent [] (roomState a))
      = View.Rows (List.map View.row (RoomContent.transcripts (roomState a))))
  /\ NoDup (List.map View.key
              (List.map View.row (RoomContent.transcripts (roomState a)))).
Proof.
  cbv zeta.
  split; [repeat split; auto using forward_printed, forward_never_repeats|].
  exact (keys_are_unique Sample.configured Sample.forward forward_printed
           forward_never_repeats
           [ConnectPressed; WelcomeEffect;
            ParticipantsChanged [Sample.assistant; Sample.user]]
           _ [] _ eq_refl eq_refl).
Defined.

Lemma decode_ascii_witness :
  Forall (fun b => (Byte.to_N b <= 127)%N) Sample.no_text
  /\ TextDecoder.decode Sample.no_text = List.map Byte.to_N Sample.no_text.
Proof.
  assert (H : Forall (fun b => (Byte.to_N b <= 127)%N) Sample.no_text)
    by (repeat constructor; discriminate).
  split; [exact H|exact (decode_ascii Sample.no_text H)].
Defined.

Lemma first_commit_witness :
  (rendered initial /\ sessionState initial = Idle
   /\ truthy (HomeScreen.LIVEKIT_URL Sample.configured) = true
   /\ truthy (HomeScreen.LIVEKIT_JWT Sample.configured) = true)
  /\ sessionState
       (run Sample.configured Sample.forward
          [ConnectPressed; WelcomeEffect; ParticipantsChanged [Sample.assistant]]
          initial)
     = Connected.
Proof.
  split; [repeat split; discriminate|].
  exact (proj1 (first_commit Sample.configured Sample.forward [Sample.assistant]
                  initial rendered_initial eq_refl eq_refl eq_refl)).
Defined.

Lemma clear_keeps_session_witness :
  sessionState Sample.connected = Connected
  /\ snapshot (step Sample.configured Sample.forward ClearPressed Sample.connected)
     = Some [].
Proof.
  split; [reflexivity|].
  exact (proj1 (proj2 (clear_keeps_session Sample.configured Sample.forward []
                         Sample.connected eq_refl))).
Defined.
